(** * ShortsSync: the selection and budget core, embedded in Rocq

    A shallow embedding of three modules of the repository:

    - [video_history.py]    (class [VideoHistory], the upload ledger),
    - [youtube_uploader.py] (class [YouTubeUploader], quota accounting and
      the batch upload loop),
    - [content_analyzer.py] (class [ContentAnalyzer], scoring, the dynamic
      view threshold and the selection cascade).

    Conventions of the embedding.

    - A Python [int] is a [Z]; a JSON object used as a dictionary is a
      [gmap string _]; a Python list is a [list].
    - A method that reads and mutates [self] or a file takes the state and
      returns the new state next to its result.
    - What the environment decides (the clock, the outcome of a file write,
      of an upload request, of [random.uniform]) is an explicit argument.
    - A finite Python float is a rational ([Q]).  Where the code computes
      with floats and truncates the result (the dynamic view threshold),
      every operation rounds to the nearest binary64 number, ties to even
      ([round_float]), and the conversions that raise [OverflowError] beyond
      the float range return [None].  A value read with [float()] may also
      be an infinity or NaN ([PyFloat]).
    - The engagement score takes a logarithm and is a real ([R]): its
      rounding is idealised.  The [OverflowError] of its integer divisions
      is modelled; a score whose product leaves the finite floats is [inf]
      in the code and a large real here, and the theorems on the value of
      the score are stated for quotients within [rate_bound]. *)

From stdpp Require Import gmap strings list sorting pretty.
From Stdlib Require Import Ascii ZArith QArith Qround Qabs Reals Lra Lia.

Open Scope Z_scope.

(** ** Python helpers *)

(** [s.startswith('@')] followed by [s = s[1:]]: the cleaning step repeated
    at the top of every [VideoHistory] method. *)
Definition starts_with_at (s : string) : bool :=
  match s with
  | String "@"%char _ => true
  | _ => false
  end.

(** [s[1:]]. *)
Definition drop_first (s : string) : string :=
  match s with
  | String _ rest => rest
  | EmptyString => EmptyString
  end.

Definition strip_at (username : string) : string :=
  if starts_with_at username then drop_first username else username.

(** [s[:n]] on a string, for [n >= 0]. *)
Definition str_take (n : nat) (s : string) : string := String.substring 0 n s.

(** Truthiness of a Python string: the empty string is false. *)
Definition str_truthy (s : string) : bool :=
  match s with
  | EmptyString => false
  | _ => true
  end.

(** [int(x)] on a float, and on the quotient of two integers: truncation
    toward zero. *)
Definition int_of_Q (q : Q) : Z := Z.quot (Qnum q) (Zpos (Qden q)).

(** *** Floats

    The finite binary64 numbers have a mantissa of 53 bits and a unit in
    the last place of at least [2^-1074].  A result is rounded to the
    nearest of them, a tie to the one with an even mantissa; a result that
    rounds to [2^1024] or beyond is out of range. *)

(** The least magnitude that rounds beyond the largest float,
    [2^1024 - 2^971]: half a unit in the last place above it. *)
Definition float_overflow : Z := 2 ^ 1024 - 2 ^ 970.

(** The integer nearest to [q], a tie going to the even one. *)
Definition round_half_even (q : Q) : Z :=
  let f := Qfloor q in
  match Qcompare (q - inject_Z f) (1 # 2) with
  | Lt => f
  | Gt => f + 1
  | Eq => if Z.even f then f else f + 1
  end.

(** [floor(log2 |q|)] for [q] other than 0. *)
Definition floor_log2 (q : Q) : Z :=
  let k := Z.log2 (Z.abs (Qnum q)) - Z.log2 (Zpos (Qden q)) in
  if Qle_bool (2 ^ k) (Qabs q) then k else k - 1.

(** The exponent of the unit in the last place of the floats around [q]. *)
Definition ulp_exponent (q : Q) : Z := Z.max (floor_log2 q - 52) (-1074).

(** The float nearest to [q], for [q] within the float range. *)
Definition round_float (q : Q) : Q :=
  if Qeq_bool q 0 then 0%Q
  else
    let ulp := (2 ^ ulp_exponent q)%Q in
    Qred (inject_Z (round_half_even (q / ulp)) * ulp).

(** Whether [a / b] on two integers raises [OverflowError] ("integer
    division result too large for a float"): the quotient rounds beyond
    the largest float. *)
Definition true_div_overflows (a b : Z) : bool :=
  float_overflow * Z.abs b <=? Z.abs a.

(** [a / b] on two integers, [b] other than 0: the float nearest to the
    quotient, [None] for [OverflowError]. *)
Definition true_div (a b : Z) : option Q :=
  if true_div_overflows a b then None
  else Some (round_float (inject_Z a / inject_Z b)).

(** The conversion of an integer operand to a float, as in [n * 0.7];
    [None] for [OverflowError] ("int too large to convert to float"). *)
Definition float_of_int (n : Z) : option Q :=
  if float_overflow <=? Z.abs n then None
  else Some (round_float (inject_Z n)).

(** [x * y] on two floats whose product is within the float range. *)
Definition float_mul (x y : Q) : Q := round_float (x * y).

(** A float literal such as [0.7]: the float nearest to the decimal. *)
Definition float_literal (q : Q) : Q := round_float q.

(** A float as [float(x)] may return it. *)
Inductive PyFloat :=
| finite (q : Q)
| infinity (negative : bool)
| nan.

(** [x < y] and [x <= y] on floats.  A comparison with NaN is false. *)
Definition float_lt (x y : PyFloat) : bool :=
  match x, y with
  | nan, _ | _, nan => false
  | finite a, finite b => negb (Qle_bool b a)
  | finite _, infinity negative => negb negative
  | infinity negative, finite _ => negative
  | infinity negative_x, infinity negative_y => negative_x && negb negative_y
  end.

Definition float_le (x y : PyFloat) : bool :=
  match x, y with
  | nan, _ | _, nan => false
  | finite a, finite b => Qle_bool a b
  | finite _, infinity negative => negb negative
  | infinity negative, finite _ => negative
  | infinity negative_x, infinity negative_y => negative_x || negb negative_y
  end.

(** The video dictionary built by the scraper, as the ledger and the
    uploader read it: ['id'] is indexed (a missing key raises [KeyError]),
    the other keys are read with [.get] and a default. *)
Record VideoData := mkVideoData {
  vd_id : option string;
  vd_caption : option string;
  vd_views : Z;
  vd_likes : Z;
  vd_comments : Z;
  vd_shares : Z
}.

(** ** video_history.py *)

Module VideoHistory.

Record Metrics := mkMetrics {
  m_views : Z;
  m_likes : Z;
  m_comments : Z;
  m_shares : Z
}.

(** One element of a channel's list in [self.history]. *)
Record Entry := mkEntry {
  video_id : string;
  title : string;
  upload_date : string;
  youtube_id : option string;
  metrics : Metrics
}.

(** [self.history]: channel user name to the list of its entries, in
    insertion order. *)
Abbreviation History := (gmap string (list Entry)).

(** The dictionary appended by [mark_video_uploaded]; [now] is
    [datetime.now().isoformat()]. *)
Definition new_entry (id : string) (video_data : VideoData)
    (youtube_id : option string) (now : string) : Entry :=
  {| video_id := id;
     title := str_take 100 (default EmptyString (vd_caption video_data));
     upload_date := now;
     youtube_id := youtube_id;
     metrics := {| m_views := vd_views video_data;
                   m_likes := vd_likes video_data;
                   m_comments := vd_comments video_data;
                   m_shares := vd_shares video_data |} |}.

(** The loop of [is_video_uploaded] over one channel's entries. *)
Fixpoint has_video (entries : list Entry) (id : string) : bool :=
  match entries with
  | [] => false
  | video :: rest =>
      if String.eqb (video_id video) id then true else has_video rest id
  end.

Definition is_video_uploaded (history : History) (username : string)
    (id : string) : bool :=
  let username := strip_at username in
  match history !! username with
  | None => false
  | Some entries => has_video entries id
  end.

(** [filter_new_videos] cleans the user name and then calls
    [is_video_uploaded], which cleans it again.  [video['id']] raises
    [KeyError] on a video without id: the result is then [None]. *)
Fixpoint filter_new_videos_loop (history : History) (username : string)
    (videos : list VideoData) : option (list VideoData) :=
  match videos with
  | [] => Some []
  | video :: rest =>
      match vd_id video with
      | None => None
      | Some id =>
          match filter_new_videos_loop history username rest with
          | None => None
          | Some new_videos =>
              if is_video_uploaded history username id
              then Some new_videos
              else Some (video :: new_videos)
          end
      end
  end.

Definition filter_new_videos (history : History) (username : string)
    (videos : list VideoData) : option (list VideoData) :=
  filter_new_videos_loop history (strip_at username) videos.

(** [mark_video_uploaded]: the new history and the returned boolean.
    [save_ok] is the result of [_save_history], the write of the history
    file.  The channel is created before the entry is built, so a video
    without ['id'] ([KeyError], caught, [False]) still leaves the empty
    channel behind.  There is no membership test on this path. *)
Definition mark_video_uploaded (history : History) (username : string)
    (video_data : VideoData) (youtube_id : option string) (now : string)
    (save_ok : bool) : History * bool :=
  let username := strip_at username in
  let history1 :=
    match history !! username with
    | None => <[username := []]> history
    | Some _ => history
    end in
  match vd_id video_data with
  | None => (history1, false)
  | Some id =>
      let entries := default [] (history1 !! username) in
      (<[username := entries ++ [new_entry id video_data youtube_id now]]> history1,
       save_ok)
  end.

Definition get_channel_history (history : History) (username : string)
    : list Entry :=
  let username := strip_at username in
  default [] (history !! username).

Definition get_upload_count (history : History) (username : string) : nat :=
  let username := strip_at username in
  length (default [] (history !! username)).

(** The ledger contract of the specification, read on this class: [Record]
    is [mark_video_uploaded], a [DuplicateEntry] failure is a [False]
    result, the stored entry count of a channel is [get_upload_count].
    [record_twice_as_specified] says of two consecutive submissions of the
    same video what the specification promises. *)
Definition record_twice_as_specified (history : History) (username : string)
    (video_data : VideoData) (y1 y2 : option string) (now1 now2 : string)
    (ok1 ok2 : bool) : Prop :=
  let first := mark_video_uploaded history username video_data y1 now1 ok1 in
  let second := mark_video_uploaded (fst first) username video_data y2 now2 ok2 in
  snd second = false ∧
  get_upload_count (fst second) username
    = (get_upload_count history username + 1)%nat.

(** The property of the '@' prefix as stated for every user name [u]:
    the four operations agree on ['@' + u] and [u], and an entry recorded
    under ['@' + u] is found under [u]. *)
Definition at_prefix_irrelevant (u : string) : Prop :=
  let au := String "@"%char u in
  ∀ (history : History) (id : string) (video_data : VideoData)
    (y : option string) (now : string) (ok : bool),
    is_video_uploaded history au id = is_video_uploaded history u id ∧
    mark_video_uploaded history au video_data y now ok
      = mark_video_uploaded history u video_data y now ok ∧
    get_channel_history history au = get_channel_history history u ∧
    get_upload_count history au = get_upload_count history u ∧
    (vd_id video_data = Some id →
     is_video_uploaded
       (fst (mark_video_uploaded history au video_data y now ok)) u id = true).

(** [mark_videos_uploaded]: the user name is cleaned here and once more in
    every [mark_video_uploaded].  [youtube_ids[i] if youtube_ids and i <
    len(youtube_ids) else None] is the lookup of [i] in the list, when
    there is one.  [now i] and [save_ok i] are the clock and the outcome of
    the file write of the [i]-th call. *)
Fixpoint mark_videos_loop (history : History) (username : string)
    (youtube_ids : option (list string)) (now : nat → string)
    (save_ok : nat → bool) (i : nat) (videos : list VideoData)
    (success : bool) : History * bool :=
  match videos with
  | [] => (history, success)
  | video :: rest =>
      let youtube_id :=
        match youtube_ids with
        | Some ids => ids !! i
        | None => None
        end in
      let '(history1, marked) :=
        mark_video_uploaded history username video youtube_id (now i) (save_ok i) in
      mark_videos_loop history1 username youtube_ids now save_ok (S i) rest
        (if marked then success else false)
  end.

Definition mark_videos_uploaded (history : History) (username : string)
    (videos : list VideoData) (youtube_ids : option (list string))
    (now : nat → string) (save_ok : nat → bool) : History * bool :=
  mark_videos_loop history (strip_at username) youtube_ids now save_ok 0
    videos true.

(** One dictionary of the list returned by [get_all_uploaded_videos]. *)
Record UploadedRef := mkUploadedRef {
  r_channel : string;
  r_video_id : string;
  r_youtube_id : string;
  r_title : string
}.

(** The inner loop of [get_all_uploaded_videos] over one channel: the
    entries whose ['youtube_id'] and ['video_id'] are both truthy. *)
Fixpoint uploaded_refs (channel : string) (entries : list Entry)
    : list UploadedRef :=
  match entries with
  | [] => []
  | video :: rest =>
      match youtube_id video with
      | Some yt =>
          if str_truthy yt && str_truthy (video_id video)
          then {| r_channel := channel; r_video_id := video_id video;
                  r_youtube_id := yt; r_title := title video |}
               :: uploaded_refs channel rest
          else uploaded_refs channel rest
      | None => uploaded_refs channel rest
      end
  end.

(** [get_all_uploaded_videos].  Python visits the channels in the order of
    the dictionary; a [gmap] does not record that order, and the channels
    are visited here in the order of [map_to_list].  Within a channel the
    order is that of the entries. *)
Definition get_all_uploaded_videos (history : History) : list UploadedRef :=
  map_to_list history ≫= λ '(channel, entries), uploaded_refs channel entries.

End VideoHistory.

(** ** youtube_uploader.py *)

Module YouTubeUploader.

(** The module-level table [QUOTA_COSTS]. *)
Definition QUOTA_COSTS : gmap string Z :=
  list_to_map
    [("videos.insert", 1600); ("videos.list", 1); ("videos.update", 50);
     ("playlistItems.insert", 50); ("channels.list", 1)].

(** [QUOTA_COSTS.get(operation, 1)]. *)
Definition quota_cost (operation : string) : Z :=
  default 1 (QUOTA_COSTS !! operation).

(** [self.daily_quota_limit], set to 10000 in [__init__]. *)
Definition daily_quota_limit : Z := 10000.

(** [self.daily_quota_limit * 0.05]: the float product is exactly 500.0. *)
Definition reserve_quota : Z := daily_quota_limit * 5 / 100.

(** One value of a day's ["operations"] dictionary. *)
Record OpUsage := mkOpUsage {
  op_count : Z;
  op_cost : Z
}.

(** One day of the quota file.  A key that may be missing is an [option]:
    [track_api_usage] writes all of them, the [quotaExceeded] handler of
    [upload_video] creates a day without ["operations"].  The
    ["last_updated"] time stamp is never read back and is left out. *)
Record DayUsage := mkDayUsage {
  used : option Z;
  remaining : option Z;
  operations : option (gmap string OpUsage);
  quota_exceeded : bool
}.

(** The content of [youtube_api_quota.json], keyed by date.  The file is
    modelled as the value it holds: [_load_quota_usage] returns it and
    [_save_quota_usage] replaces it. *)
Abbreviation QuotaData := (gmap string DayUsage).

(** [quota_data.get(today, {}).get("used", 0)]. *)
Definition used_today (quota_data : QuotaData) (today : string) : Z :=
  match quota_data !! today with
  | Some day => default 0 (used day)
  | None => 0
  end.

(** [int(effective_remaining / cost_per_op)] for today's usage: float
    division, then truncation toward zero. *)
Definition possible_uploads (quota_data : QuotaData) (today : string) : Z :=
  let remaining_quota := daily_quota_limit - used_today quota_data today in
  let effective_remaining := remaining_quota - reserve_quota in
  Z.quot effective_remaining (quota_cost "videos.insert").

Definition check_quota_available (quota_data : QuotaData) (today : string)
    (operation : string) (count : Z) : bool :=
  let cost_per_op := quota_cost operation in
  let total_cost := cost_per_op * count in
  let used_quota := used_today quota_data today in
  let remaining_quota := daily_quota_limit - used_quota in
  if String.eqb operation "videos.insert" then
    let effective_remaining := remaining_quota - reserve_quota in
    if total_cost >? effective_remaining then
      let possible_uploads := Z.quot effective_remaining cost_per_op in
      if possible_uploads >? 0 then true else false
    else true
  else
    if total_cost >? remaining_quota then false else true.

(** The day created by [track_api_usage] when today is not in the file. *)
Definition fresh_day : DayUsage :=
  {| used := Some 0; remaining := Some daily_quota_limit;
     operations := Some ∅; quota_exceeded := false |}.

(** [track_api_usage]: the new content of the quota file and the returned
    boolean.  An indexing of a missing key raises [KeyError] before the
    file is written: the file is then unchanged and the result is [False]. *)
Definition track_api_usage (quota_data : QuotaData) (today : string)
    (operation : string) (count : Z) : QuotaData * bool :=
  let cost_per_op := quota_cost operation in
  let total_cost := cost_per_op * count in
  let day := default fresh_day (quota_data !! today) in
  match used day, operations day with
  | Some used0, Some ops0 =>
      let used1 := used0 + total_cost in
      let remaining1 := Z.max 0 (daily_quota_limit - used1) in
      let op0 := default {| op_count := 0; op_cost := 0 |} (ops0 !! operation) in
      let op1 := {| op_count := op_count op0 + count;
                    op_cost := op_cost op0 + total_cost |} in
      (<[today := {| used := Some used1; remaining := Some remaining1;
                     operations := Some (<[operation := op1]> ops0);
                     quota_exceeded := quota_exceeded day |}]> quota_data,
       true)
  | _, _ => (quota_data, false)
  end.

(** What the body of the [try] block of [upload_video] does once the API
    client and the quota check have let the upload through. *)
Inductive UploadAttempt :=
| Returned (video_id : option string)
    (* [_execute_upload_request] returned this value *)
| RaisedQuotaExceeded
    (* an [HttpError] whose reason is [quotaExceeded] *)
| RaisedOther.
    (* an [HttpError] with another reason, or any other exception *)

(** The [quotaExceeded] handler: today's usage is forced to the limit. *)
Definition force_quota_exceeded (quota_data : QuotaData) (today : string)
    : QuotaData :=
  let ops := match quota_data !! today with
             | Some day => operations day
             | None => None
             end in
  <[today := {| used := Some daily_quota_limit; remaining := Some 0;
                operations := ops; quota_exceeded := true |}]> quota_data.

(** [upload_video]: the returned video id, if any, and the new quota file.
    [api] is the truth value of [self.api].  [YOUTUBE_DEFAULTS] has no
    ['shorts_playlist_id'], so the playlist step never runs. *)
Definition upload_video (api : bool) (quota_data : QuotaData) (today : string)
    (attempt : UploadAttempt) : option string * QuotaData :=
  if negb api then (None, quota_data)
  else if negb (check_quota_available quota_data today "videos.insert" 1)
  then (None, quota_data)
  else
    match attempt with
    | Returned (Some video_id) =>
        if str_truthy video_id
        then (Some video_id,
              fst (track_api_usage quota_data today "videos.insert" 1))
        else (None, quota_data)
    | Returned None => (None, quota_data)
    | RaisedQuotaExceeded => (None, force_quota_exceeded quota_data today)
    | RaisedOther => (None, quota_data)
    end.

Record Uploaded := mkUploaded {
  s_file : string;
  s_video_id : string;
  s_title : string
}.

Record Failure := mkFailure {
  f_file : string;
  f_title : string;
  f_error : string
}.

(** The dictionary [results] of [_upload_immediately]. *)
Record Results := mkResults {
  successful : list Uploaded;
  failed : list Failure
}.

Inductive PyError := IndexError.

Inductive Outcome (A : Type) :=
| Ok (a : A)
| Raise (e : PyError).
Arguments Ok {A} a.
Arguments Raise {A} e.

(** [video_data.get('caption', f"Video {i+1}")]. *)
Definition title_of (i : nat) (video_data : VideoData) : string :=
  default ("Video " +:+ pretty (i + 1)%nat) (vd_caption video_data).

Definition quota_failure (i : nat) (video_file : string)
    (video_data : VideoData) : Failure :=
  {| f_file := video_file; f_title := title_of i video_data;
     f_error := "Quota exceeded" |}.

(** The loop taken when no upload is affordable: every video is appended
    to ["failed"].  The two lists have the same length here. *)
Definition fail_all (video_files : list string)
    (video_data_list : list VideoData) : list Failure :=
  imap (λ i item, quota_failure i item.1 item.2)
       (zip video_files video_data_list).

(** The loop [for i in range(possible_uploads, total_uploads)], run on the
    lists as they are at that point of the code.  Indexing past the end of
    a Python list raises [IndexError]. *)
Fixpoint mark_remaining (video_files : list string)
    (video_data_list : list VideoData) (indices : list nat)
    (failed : list Failure) : Outcome (list Failure) :=
  match indices with
  | [] => Ok failed
  | i :: rest =>
      match video_data_list !! i with
      | None => Raise IndexError
      | Some video_data =>
          match video_files !! i with
          | None => Raise IndexError
          | Some video_file =>
              mark_remaining video_files video_data_list rest
                (failed ++ [quota_failure i video_file video_data])
          end
      end
  end.

(** The loop [for i, (video_file, video_data) in enumerate(zip(...))].
    [attempt k] is what the upload request of the [k]-th iteration does if
    [upload_video] gets as far as sending it. *)
Fixpoint upload_loop (api : bool) (today : string)
    (attempt : nat → UploadAttempt) (i : nat)
    (items : list (string * VideoData)) (results : Results)
    (quota_data : QuotaData) : Results * QuotaData :=
  match items with
  | [] => (results, quota_data)
  | (video_file, video_data) :: rest =>
      let '(upload_result, quota_data1) :=
        upload_video api quota_data today (attempt i) in
      let results1 :=
        match upload_result with
        | Some video_id =>
            {| successful := successful results ++
                 [{| s_file := video_file; s_video_id := video_id;
                     s_title := title_of i video_data |}];
               failed := failed results |}
        | None =>
            {| successful := successful results;
               failed := failed results ++
                 [{| f_file := video_file; f_title := title_of i video_data;
                     f_error := "Upload failed" |}] |}
        end in
      upload_loop api today attempt (S i) rest results1 quota_data1
  end.

(** The body of the branch [if not self.check_quota_available(...)], from
    the recomputed [possible_uploads] on.  The two lists are cut to
    [possible_uploads] first and indexed from [possible_uploads] after. *)
Definition quota_limited (api : bool) (today : string)
    (attempt : nat → UploadAttempt) (possible_uploads : Z)
    (video_files : list string) (video_data_list : list VideoData)
    (quota_data : QuotaData) : Outcome (Results * QuotaData) :=
  let total_uploads := length video_files in
  if possible_uploads <=? 0 then
    Ok ({| successful := []; failed := fail_all video_files video_data_list |},
        quota_data)
  else
    let video_files := take (Z.to_nat possible_uploads) video_files in
    let video_data_list := take (Z.to_nat possible_uploads) video_data_list in
    match mark_remaining video_files video_data_list
            (seq (Z.to_nat possible_uploads)
                 (total_uploads - Z.to_nat possible_uploads)) [] with
    | Raise e => Raise e
    | Ok failed0 =>
        Ok (upload_loop api today attempt 0 (zip video_files video_data_list)
              {| successful := []; failed := failed0 |} quota_data)
    end.

Definition _upload_immediately (api : bool) (today : string)
    (attempt : nat → UploadAttempt) (video_files : list string)
    (video_data_list : list VideoData) (quota_data : QuotaData)
    : Outcome (Results * QuotaData) :=
  let results := {| successful := []; failed := [] |} in
  if negb (length video_files =? length video_data_list)%nat
  then Ok (results, quota_data)
  else
    let total_uploads := length video_files in
    if negb (check_quota_available quota_data today "videos.insert"
               (Z.of_nat total_uploads))
    then quota_limited api today attempt (possible_uploads quota_data today)
           video_files video_data_list quota_data
    else Ok (upload_loop api today attempt 0 (zip video_files video_data_list)
               results quota_data).


(** A day of the quota file as this class leaves it: ["used"] is present,
    and ["operations"] is missing only in a day created by the
    [quotaExceeded] handler, whose usage is the whole limit. *)
Definition day_ok (day : DayUsage) : bool :=
  match used day, operations day with
  | Some _, Some _ => true
  | Some u, None => u =? daily_quota_limit
  | None, _ => false
  end.

Definition date_ok (quota_data : QuotaData) (date : string) : bool :=
  match quota_data !! date with
  | Some day => day_ok day
  | None => true
  end.

(** What the specification promises of a batch that is only partly
    affordable: with [k = floor(effectiveRemaining / costPerPublish)] and
    [0 < k < n], the call returns, exactly the first [k] videos are in
    ["successful"], in input order, and the other [n - k] are in
    ["failed"]. *)
Definition partial_batch_as_specified (api : bool) (today : string)
    (attempt : nat → UploadAttempt) (video_files : list string)
    (video_data_list : list VideoData) (quota_data : QuotaData) : Prop :=
  let k := possible_uploads quota_data today in
  length video_files = length video_data_list →
  0 < k < Z.of_nat (length video_files) →
  ∃ results quota_data1,
    _upload_immediately api today attempt video_files video_data_list quota_data
      = Ok (results, quota_data1) ∧
    s_file <$> successful results = take (Z.to_nat k) video_files ∧
    f_file <$> failed results = drop (Z.to_nat k) video_files.

(** Every upload request that is sent returns a video id. *)
Definition all_requests_succeed (attempt : nat → UploadAttempt) : Prop :=
  ∀ i, ∃ video_id,
    attempt i = Returned (Some video_id) ∧ str_truthy video_id = true.



(** What the request of [check_video_exists] does: it returns a response
    with [n] items ([0] when the key is missing), or raises. *)
Inductive ExistsRequest :=
| ItemsReturned (n : nat)
| RaisedHttpError
| RaisedException.

(** [check_video_exists]: the answer and the new quota file.  [youtube] is
    the truth value of [self.youtube]. *)
Definition check_video_exists (youtube : bool) (quota_data : QuotaData)
    (today : string) (request : ExistsRequest) : bool * QuotaData :=
  if negb youtube then (false, quota_data)
  else if negb (check_quota_available quota_data today "videos.list" 1)
  then (true, quota_data)
  else
    match request with
    | ItemsReturned n =>
        ((0 <? n)%nat, fst (track_api_usage quota_data today "videos.list" 1))
    | RaisedHttpError => (false, quota_data)
    | RaisedException => (false, quota_data)
    end.

(** *** The upload schedule *)

(** The entries of [config.REPOSTING_SETTINGS] read by
    [get_upload_schedule]. *)
Definition publish_days : list string := ["Monday"; "Wednesday"; "Friday"].
Definition schedule_times : list string := ["08:00"; "12:00"; "18:00"].

Definition day_map : gmap string nat :=
  list_to_map
    [("Monday", 0%nat); ("Tuesday", 1%nat); ("Wednesday", 2%nat);
     ("Thursday", 3%nat); ("Friday", 4%nat); ("Saturday", 5%nat);
     ("Sunday", 6%nat)].

(** [[day_map[day] for day in publish_days if day in day_map]], replaced
    by [range(7)] when empty. *)
Definition publish_day_indices : list nat :=
  match omap (λ day, day_map !! day) publish_days with
  | [] => seq 0 7
  | indices => indices
  end.

(** A scheduled time: [now + timedelta(days=days_added)] with the hour and
    the minute of [time_str]. *)
Record Slot := mkSlot {
  days_added : nat;
  time_str : string
}.

(** The loop [for time_str in schedule_times] of one day.  [missing] is
    [num_videos - len(schedule)] when the loop starts; the loop breaks
    after the append that fills the schedule. *)
Fixpoint day_slots (days_added : nat) (current_time : string)
    (times : list string) (missing : nat) : list Slot :=
  match times with
  | [] => []
  | time_str :: rest =>
      if (days_added =? 0)%nat && String.leb time_str current_time
      then day_slots days_added current_time rest missing
      else
        let slot := {| days_added := days_added; time_str := time_str |} in
        match missing with
        | S (S others) =>
            slot :: day_slots days_added current_time rest (S others)
        | _ => [slot]
        end
  end.

(** The loop [while len(schedule) < num_videos], one day per iteration;
    [fuel] bounds the number of days looked at. *)
Fixpoint schedule_loop (fuel : nat) (current_day days_added : nat)
    (current_time : string) (missing : nat) : option (list Slot) :=
  match missing with
  | O => Some []
  | _ =>
      match fuel with
      | O => None
      | S fuel' =>
          let added :=
            if bool_decide (current_day ∈ publish_day_indices)
            then day_slots days_added current_time schedule_times missing
            else [] in
          match schedule_loop fuel' ((current_day + 1) `mod` 7) (S days_added)
                  "00:00" (missing - length added) with
          | Some later => Some (added ++ later)
          | None => None
          end
      end
  end.

(** [get_upload_schedule]: [weekday] is [now.weekday()] and [current_time]
    is [now.strftime('%H:%M')]. *)
Definition get_upload_schedule (fuel : nat) (weekday : nat)
    (current_time : string) (num_videos : Z) : option (list Slot) :=
  schedule_loop fuel weekday 0 current_time (Z.to_nat num_videos).

(** The weekday of a slot, for a schedule computed on weekday [weekday]. *)
Definition slot_weekday (weekday : nat) (slot : Slot) : nat :=
  (weekday + days_added slot) `mod` 7.

(** [a] is strictly earlier than [b]. *)
Definition slot_before (a b : Slot) : Prop :=
  (days_added a < days_added b)%nat ∨
  (days_added a = days_added b ∧ String.ltb (time_str a) (time_str b) = true).

(** A slot of a schedule computed on weekday [weekday] at [current_time]
    is on a publishing day, at one of the configured times, and not at or
    before [current_time] on the first day. *)
Definition slot_ok (weekday : nat) (current_time : string) (slot : Slot)
    : Prop :=
  slot_weekday weekday slot ∈ publish_day_indices ∧
  time_str slot ∈ schedule_times ∧
  (days_added slot = 0%nat → String.leb (time_str slot) current_time = false).

(** The slots that a schedule continued from day [d0] on may hold, and
    their order. *)
Definition from_day (weekday : nat) (current_time : string) (d0 : nat)
    (l : list Slot) : Prop :=
  Forall (λ s, (d0 ≤ days_added s)%nat ∧ slot_ok weekday current_time s) l ∧
  StronglySorted slot_before l.

End YouTubeUploader.

(** ** content_analyzer.py *)

Module ContentAnalyzer.

(** [sorted(l, key=..., reverse=...)] and [l.sort()]: a stable sort.
    [before x y] says that [x] may stand in front of [y]; an element is
    inserted in front of the first element it may stand in front of, so
    equal keys keep their input order. *)
Fixpoint insert_before {A : Type} (before : A → A → bool) (x : A)
    (l : list A) : list A :=
  match l with
  | [] => [x]
  | y :: rest =>
      if before x y then x :: y :: rest
      else y :: insert_before before x rest
  end.

Definition py_sorted {A : Type} (before : A → A → bool) (l : list A) : list A :=
  foldr (insert_before before) [] l.

(** [c.lower()] on the ASCII letters, [s.lower()], and [needle in hay]. *)
Definition lower_char (c : ascii) : ascii :=
  let n := nat_of_ascii c in
  if ((65 <=? n) && (n <=? 90))%nat then ascii_of_nat (n + 32) else c.

Fixpoint lower (s : string) : string :=
  match s with
  | EmptyString => EmptyString
  | String c rest => String (lower_char c) (lower rest)
  end.

Fixpoint contains (needle hay : string) : bool :=
  String.prefix needle hay ||
  match hay with
  | EmptyString => false
  | String _ rest => contains needle rest
  end.

Definition Qlt_b (x y : Q) : bool := negb (Qle_bool y x).

(** The value under ['createTime']: the key may be missing, hold something
    [int()] converts, or hold something [int()] rejects. *)
Inductive CreateTime :=
| ct_absent
| ct_int (t : Z)
| ct_invalid.

(** A raw TikTok item as the analyzer reads it: the four counters of
    ['stats'] after [int()], ['video']['duration'] after [float()] (which
    accepts ["nan"] and ["inf"] as well as numbers), ['createTime'] and
    ['desc']. *)
Record Video := mkVideo {
  playCount : Z;
  diggCount : Z;
  commentCount : Z;
  shareCount : Z;
  duration : PyFloat;
  createTime : CreateTime;
  desc : string
}.

(** [int(video.get('createTime', 0))]; [None] when [int()] raises. *)
Definition create_time (video : Video) : option Z :=
  match createTime video with
  | ct_absent => Some 0
  | ct_int t => Some t
  | ct_invalid => None
  end.

(** The entries of [config.CONTENT_FILTERS] that the analyzer reads. *)
Definition min_duration : Q := 3.
Definition max_duration : Q := 60.
Definition min_views : Z := 1000.
Definition min_engagement_rate : R := 0.5%R.
Definition exclude_hashtags : list string := ["#ad"; "#sponsored"; "#promotion"].

(** [math.log10]. *)
Definition log10 (x : R) : R := (ln x / ln 10)%R.

(** The score of a video without any metric: [min(5, max(0, create_time /
    1000000000))], or the value [rnd] drawn by [random.uniform(0.1, 1.0)]
    in the bare [except], which is reached when the creation time cannot be
    converted and when the division raises [OverflowError]. *)
Definition fallback_score (rnd : R) (create_time : option Z) : R :=
  match create_time with
  | Some t =>
      if true_div_overflows t 1000000000 then rnd
      else Rmin 5 (Rmax 0 (IZR t / 1000000000))
  | None => rnd
  end.

Definition engagement_total (video : Video) : Z :=
  diggCount video + commentCount video + shareCount video.

(** [calculate_engagement_score].  [rnd] is the value [random.uniform]
    returns if the call reaches it.  The division raises [OverflowError]
    when the quotient is beyond the float range, [math.log10] raises
    [ValueError] on a non-positive argument (and takes an integer of any
    size), and the outer handler then returns 0.5. *)
Definition calculate_engagement_score (rnd : R) (video : Video) : R :=
  let views := playCount video in
  let likes := diggCount video in
  let comments := commentCount video in
  let shares := shareCount video in
  if (views =? 0) && (likes =? 0) && (comments =? 0) && (shares =? 0) then
    fallback_score rnd (create_time video)
  else if views =? 0 then 0%R
  else if true_div_overflows (likes + comments + shares) views then 0.5%R
  else
    let engagement_rate := (IZR (likes + comments + shares) / IZR views)%R in
    if views + 1 <=? 0 then 0.5%R
    else
      let log_views := log10 (IZR (views + 1)) in
      (0.4 * log_views + 0.6 * engagement_rate * 10)%R.

(** The normal-regime formula in the words of the specification:
    [0.4 * log10(views + 1) + 0.6 * engagementRate * 10] with
    [engagementRate = (likes + comments + shares) / max(views, 1)]. *)
Definition spec_engagement_rate (video : Video) : R :=
  (IZR (engagement_total video) / IZR (Z.max (playCount video) 1))%R.

Definition spec_normal_score (video : Video) : R :=
  (0.4 * log10 (IZR (playCount video + 1))
   + 0.6 * spec_engagement_rate video * 10)%R.


(** The counters of a [CandidateItem] are non-negative integers. *)
Definition counters_nonneg (video : Video) : Prop :=
  0 ≤ playCount video ∧ 0 ≤ diggCount video ∧
  0 ≤ commentCount video ∧ 0 ≤ shareCount video.

(** At least one counter is positive (the normal regime). *)
Definition some_counter_positive (video : Video) : Prop :=
  0 < playCount video ∨ 0 < diggCount video ∨
  0 < commentCount video ∨ 0 < shareCount video.

(** All four counters are zero (the degenerate regime). *)
Definition no_metrics (video : Video) : Prop :=
  playCount video = 0 ∧ diggCount video = 0 ∧
  commentCount video = 0 ∧ shareCount video = 0.

(** The quotient [(likes + comments + shares) / max(views, 1)] is at most
    [rate_bound]: the division does not overflow, and neither does the
    product [0.6 * engagement_rate * 10], which stays below [2^1003]. *)
Definition rate_bound : Z := 2 ^ 1000.

Definition rate_within_float_range (video : Video) : Prop :=
  engagement_total video ≤ rate_bound * Z.max (playCount video) 1.

(** The degenerate regime as the specification states it: a value in
    [0, 5] from the creation timestamp, or a random value in [0.1, 1.0]
    when the timestamp is absent. *)
Definition degenerate_as_specified (rnd : R) (video : Video) : Prop :=
  no_metrics video →
  (0.1 <= rnd <= 1.0)%R →
  match createTime video with
  | ct_absent => (0.1 <= calculate_engagement_score rnd video <= 1.0)%R
  | _ => (0 <= calculate_engagement_score rnd video <= 5)%R
  end.

(** Two videos have the same engagement rate [(likes + comments + shares)
    / max(views, 1)]; the equality of the two fractions is written without
    division. *)
Definition same_engagement_rate (a b : Video) : Prop :=
  engagement_total a * Z.max (playCount b) 1
  = engagement_total b * Z.max (playCount a) 1.

(** The monotonicity of the score as the specification states it, for two
    videos that each have a positive counter. *)
Definition score_monotone_as_specified (rnd_a rnd_b : R) (a b : Video) : Prop :=
  counters_nonneg a → counters_nonneg b →
  some_counter_positive a → some_counter_positive b →
  (playCount a ≤ playCount b ∧ same_engagement_rate a b) ∨
  (playCount a = playCount b ∧ engagement_total a ≤ engagement_total b) →
  (calculate_engagement_score rnd_a a <= calculate_engagement_score rnd_b b)%R.

(** *** The dynamic view threshold *)

Inductive ChannelSize := small | medium | large.

Definition sum_views (view_counts : list Z) : Z := foldr Z.add 0 view_counts.

(** [[views for views in view_counts if views > 0]] on the play counts. *)
Definition positive_view_counts (videos : list Video) : list Z :=
  filter (λ views, 0 < views) (map playCount videos).

(** [sum(view_counts) / len(view_counts)] on a non-empty list; [None]
    when the division raises [OverflowError]. *)
Definition average (view_counts : list Z) : option Q :=
  true_div (sum_views view_counts) (Z.of_nat (length view_counts)).

Definition classify (avg_views : Q) : ChannelSize :=
  if Qlt_b avg_views 20000 then small
  else if Qlt_b avg_views 100000 then medium
  else large.

Definition min_bound (channel_size : ChannelSize) : Z :=
  match channel_size with
  | small => 3000
  | medium => 8000
  | large => 15000
  end.

Definition max_bound : Z := 500000.

(** [view_counts[i]]; the two indices the code uses are within the list
    (lemma [threshold_indices_in_range]). *)
Definition at_index (view_counts : list Z) (i : nat) : Z :=
  default 0 (view_counts !! i).

(** [int(len(view_counts) * 0.75)].  A list in memory has fewer than
    [2^53] elements, so that its length and three quarters of it are
    floats: the product is exact. *)
Definition percentile_75_index (n : nat) : nat :=
  Z.to_nat (int_of_Q (inject_Z (Z.of_nat n) * (3 # 4))).

(** [int(avg_views * 0.7)], [int(median_views * 0.8)] and
    [int(percentile_75 * 0.7)], on the sorted positive counts: the integer
    operand is converted to a float, the product is rounded and then
    truncated.  [None] when the conversion raises [OverflowError]. *)
Definition dynamic_threshold (channel_size : ChannelSize) (avg_views : Q)
    (view_counts : list Z) : option Z :=
  let n := length view_counts in
  let median_views := at_index view_counts (n / 2) in
  let percentile_75 := at_index view_counts (percentile_75_index n) in
  match channel_size with
  | small =>
      Some (int_of_Q (float_mul avg_views (float_literal (7 # 10))))
  | medium =>
      x ← float_of_int median_views;
      Some (int_of_Q (float_mul x (float_literal (8 # 10))))
  | large =>
      x ← float_of_int percentile_75;
      Some (int_of_Q (float_mul x (float_literal (7 # 10))))
  end.

(** The [try] block from the statistics on, for the sorted positive
    counts; [None] when it raises. *)
Definition threshold_of_counts (view_counts : list Z) : option Z :=
  avg_views ← average view_counts;
  let channel_size := classify avg_views in
  dynamic_threshold ← dynamic_threshold channel_size avg_views view_counts;
  Some (Z.max (min_bound channel_size) (Z.min dynamic_threshold max_bound)).

(** The size class the code computes, when it computes one: [None] on the
    paths that return the static default before a class is assigned. *)
Definition channel_size_of (videos : list Video) : option ChannelSize :=
  match positive_view_counts videos with
  | [] => None
  | view_counts => classify <$> average (py_sorted Z.leb view_counts)
  end.

(** [calculate_dynamic_view_threshold]; the handler of the [try] block
    returns the static default. *)
Definition calculate_dynamic_view_threshold (videos : list Video) : Z :=
  match videos with
  | [] => min_views
  | _ =>
      match positive_view_counts videos with
      | [] => min_views
      | view_counts =>
          default min_views (threshold_of_counts (py_sorted Z.leb view_counts))
      end
  end.

(** Every play count is within the float range. *)
Definition views_within_float_range (videos : list Video) : Prop :=
  Forall (λ video, playCount video < float_overflow) videos.

(** The admission floor as the specification bounds it, for a list of
    recent view counts that is not empty: some size class has its minimum
    bound below the floor, and the floor is at most 500000. *)
Definition floor_bounded_as_specified (videos : list Video) : Prop :=
  videos ≠ [] →
  ∃ channel_size,
    min_bound channel_size ≤ calculate_dynamic_view_threshold videos
    ∧ calculate_dynamic_view_threshold videos ≤ 500000.

(** *** Filtering, ranking and selection *)

(** The loop of [filter_by_content_policy]; [rnd i] is the random value at
    the disposal of the scoring of the [i]-th video. *)
Fixpoint policy_loop (rnd : nat → R) (dynamic_view_threshold : Z) (i : nat)
    (videos : list Video) : list Video :=
  match videos with
  | [] => []
  | video :: rest =>
      let kept := policy_loop rnd dynamic_view_threshold (S i) rest in
      if float_lt (duration video) (finite min_duration)
         || float_lt (finite max_duration) (duration video)
      then kept
      else if playCount video <? dynamic_view_threshold then kept
      else if Rlt_dec (calculate_engagement_score (rnd i) video) min_engagement_rate
      then kept
      else if existsb (λ tag, contains (lower tag) (lower (desc video)))
                exclude_hashtags
      then kept
      else video :: kept
  end.

Definition filter_by_content_policy (rnd : nat → R) (videos : list Video)
    : list Video :=
  match videos with
  | [] => []
  | _ => policy_loop rnd (calculate_dynamic_view_threshold videos) 0 videos
  end.

(** A video with its ['engagement_score'] and ['rank']. *)
Record Ranked := mkRanked {
  item : Video;
  engagement_score : R;
  rank : nat
}.

Definition score_not_below (a b : Video * R) : bool :=
  if Rle_dec b.2 a.2 then true else false.

Definition rank_videos (rnd : nat → R) (videos : list Video) : list Ranked :=
  let scored := imap (λ i video, (video, calculate_engagement_score (rnd i) video))
                     videos in
  let ranked_videos := py_sorted score_not_below scored in
  imap (λ i p, {| item := p.1; engagement_score := p.2; rank := i + 1 |})
       ranked_videos.

(** [3 <= duration <= 60], the test of the first fallback. *)
Definition shorts_duration (video : Video) : bool :=
  float_le (finite 3) (duration video) && float_le (duration video) (finite 60).

(** [sorted(videos, key=lambda x: int(x.get('createTime', 0)),
    reverse=True)]; [None] when a key raises. *)
Definition newest_first (videos : list Video) : option (list Video) :=
  if forallb (λ video, bool_decide (is_Some (create_time video))) videos
  then Some (py_sorted
               (λ a b, default 0 (create_time b) <=? default 0 (create_time a))
               videos)
  else None.

(** Which [logger] line tells how the candidates were chosen. *)
Inductive Stage :=
| no_videos          (* "No videos to select from" *)
| content_policy     (* the policy filter kept something *)
| duration_recency   (* "Using duration + recency filter as fallback" *)
| recency_only       (* "Using only recency as filter" *)
| no_filtering.      (* "Using no filtering (last resort)" *)

(** The part of [select_top_videos] that chooses [filtered_videos]. *)
Definition choose_candidates (rnd : nat → R) (videos : list Video)
    (top_n : nat) : list Video * Stage :=
  match filter_by_content_policy rnd videos with
  | (_ :: _) as filtered_videos => (filtered_videos, content_policy)
  | [] =>
      match filter (λ v, shorts_duration v = true) videos with
      | (_ :: _) as duration_filtered =>
          match newest_first duration_filtered with
          | Some sorted => (take top_n sorted, duration_recency)
          | None => (take top_n videos, no_filtering)
          end
      | [] =>
          match newest_first videos with
          | Some sorted => (take top_n sorted, recency_only)
          | None => (take top_n videos, no_filtering)
          end
      end
  end.

(** [select_top_videos]: the selected videos and the stage that was
    logged.  [top_n] is a count; [rnd_policy] and [rnd_rank] are the random
    values at the disposal of the two scoring passes. *)
Definition select_top_videos (rnd_policy rnd_rank : nat → R)
    (videos : list Video) (top_n : nat) : list Ranked * Stage :=
  match videos with
  | [] => ([], no_videos)
  | _ =>
      let '(filtered_videos, stage) := choose_candidates rnd_policy videos top_n in
      let ranked_videos := rank_videos rnd_rank filtered_videos in
      (take (top_n `min` length ranked_videos) ranked_videos, stage)
  end.

(** The configured duration window: the duration is a number between
    [min_duration] and [max_duration]. *)
Definition in_duration_window (video : Video) : Prop :=
  match duration video with
  | finite seconds => (min_duration <= seconds)%Q ∧ (seconds <= max_duration)%Q
  | _ => False
  end.

(** The stages in which no duration test was applied. *)
Definition unfiltered (stage : Stage) : Prop :=
  stage = recency_only ∨ stage = no_filtering.

(** The selection as the specification states it: at most [top_n] videos,
    all within the duration window unless an unfiltered stage was
    logged. *)
Definition selection_as_specified (rnd_policy rnd_rank : nat → R)
    (videos : list Video) (top_n : nat) : Prop :=
  let out := select_top_videos rnd_policy rnd_rank videos top_n in
  (length out.1 ≤ top_n)%nat ∧
  (unfiltered out.2 ∨ Forall (λ r, in_duration_window (item r)) out.1).

(** What the policy filter requires of a video it keeps, for the view
    threshold of its channel: a duration that is neither below the minimum
    nor above the maximum (within the window, or NaN, which no comparison
    rejects), the view threshold, the minimum score whatever the random
    draw, and no excluded hashtag in the description, in any letter
    case. *)
Definition meets_policy (dynamic_view_threshold : Z) (video : Video) : Prop :=
  (in_duration_window video ∨ duration video = nan) ∧
  dynamic_view_threshold ≤ playCount video ∧
  (∀ rnd, (min_engagement_rate <= calculate_engagement_score rnd video)%R) ∧
  Forall (λ tag, contains (lower tag) (lower (desc video)) = false)
         exclude_hashtags.

(** [a] is ranked in front of [b] only with a score that is not lower. *)
Definition score_order (a b : Ranked) : Prop :=
  (engagement_score b <= engagement_score a)%R.

End ContentAnalyzer.

(** ** Sample data *)

Module Samples.

Definition clip : VideoData :=
  {| vd_id := Some "7301"; vd_caption := Some "first clip";
     vd_views := 1200; vd_likes := 90; vd_comments := 4; vd_shares := 1 |}.

Definition today : string := "2024-05-01".

(** A quota file whose current day has 6000 units used. *)
Definition quota_6000 : YouTubeUploader.QuotaData :=
  {[ today :=
       {| YouTubeUploader.used := Some 6000;
          YouTubeUploader.remaining := Some 4000;
          YouTubeUploader.operations :=
            Some (<["videos.insert" := YouTubeUploader.mkOpUsage 3 4800]>
                    {["videos.update" := YouTubeUploader.mkOpUsage 24 1200]});
          YouTubeUploader.quota_exceeded := false |} ]}.

(** A quota file whose current day has 8500 units used. *)
Definition quota_8500 : YouTubeUploader.QuotaData :=
  {[ today :=
       {| YouTubeUploader.used := Some 8500;
          YouTubeUploader.remaining := Some 1500;
          YouTubeUploader.operations :=
            Some (<["videos.insert" := YouTubeUploader.mkOpUsage 5 8000]>
                    {["videos.update" := YouTubeUploader.mkOpUsage 10 500]});
          YouTubeUploader.quota_exceeded := false |} ]}.

Definition clip_a : VideoData :=
  {| vd_id := Some "a"; vd_caption := Some "clip a";
     vd_views := 50000; vd_likes := 4000; vd_comments := 120; vd_shares := 30 |}.

Definition clip_b : VideoData :=
  {| vd_id := Some "b"; vd_caption := Some "clip b";
     vd_views := 40000; vd_likes := 2500; vd_comments := 80; vd_shares := 12 |}.

Definition clip_c : VideoData :=
  {| vd_id := Some "c"; vd_caption := None;
     vd_views := 30000; vd_likes := 900; vd_comments := 15; vd_shares := 2 |}.

(** The first upload request fails, the second and the third succeed. *)
Definition first_request_fails (i : nat) : YouTubeUploader.UploadAttempt :=
  match i with
  | O => YouTubeUploader.RaisedOther
  | 1%nat => YouTubeUploader.Returned (Some "yt-b")
  | _ => YouTubeUploader.Returned (Some "yt-c")
  end.

(** A video that has been liked once and never played. *)
Definition liked_unplayed : ContentAnalyzer.Video :=
  {| ContentAnalyzer.playCount := 0; ContentAnalyzer.diggCount := 1;
     ContentAnalyzer.commentCount := 0; ContentAnalyzer.shareCount := 0;
     ContentAnalyzer.duration := finite 15;
     ContentAnalyzer.createTime := ContentAnalyzer.ct_int 1700000000;
     ContentAnalyzer.desc := "liked" |}.

(** A video without any metric, created at second 1700000000. *)
Definition fresh_video : ContentAnalyzer.Video :=
  {| ContentAnalyzer.playCount := 0; ContentAnalyzer.diggCount := 0;
     ContentAnalyzer.commentCount := 0; ContentAnalyzer.shareCount := 0;
     ContentAnalyzer.duration := finite 20;
     ContentAnalyzer.createTime := ContentAnalyzer.ct_int 1700000000;
     ContentAnalyzer.desc := "fresh" |}.

Definition popular : ContentAnalyzer.Video :=
  {| ContentAnalyzer.playCount := 1000; ContentAnalyzer.diggCount := 80;
     ContentAnalyzer.commentCount := 15; ContentAnalyzer.shareCount := 5;
     ContentAnalyzer.duration := finite 30;
     ContentAnalyzer.createTime := ContentAnalyzer.ct_int 1690000000;
     ContentAnalyzer.desc := "popular" |}.

(** Twice the views of [popular] at the same engagement rate. *)
Definition more_popular : ContentAnalyzer.Video :=
  {| ContentAnalyzer.playCount := 2000; ContentAnalyzer.diggCount := 160;
     ContentAnalyzer.commentCount := 30; ContentAnalyzer.shareCount := 10;
     ContentAnalyzer.duration := finite 30;
     ContentAnalyzer.createTime := ContentAnalyzer.ct_absent;
     ContentAnalyzer.desc := "more popular" |}.

(** The views of [popular] with more likes. *)
Definition better_liked : ContentAnalyzer.Video :=
  {| ContentAnalyzer.playCount := 1000; ContentAnalyzer.diggCount := 120;
     ContentAnalyzer.commentCount := 15; ContentAnalyzer.shareCount := 5;
     ContentAnalyzer.duration := finite 30;
     ContentAnalyzer.createTime := ContentAnalyzer.ct_invalid;
     ContentAnalyzer.desc := "better liked" |}.

Definition with_views (views : Z) : ContentAnalyzer.Video :=
  {| ContentAnalyzer.playCount := views; ContentAnalyzer.diggCount := 0;
     ContentAnalyzer.commentCount := 0; ContentAnalyzer.shareCount := 0;
     ContentAnalyzer.duration := finite 30;
     ContentAnalyzer.createTime := ContentAnalyzer.ct_absent;
     ContentAnalyzer.desc := EmptyString |}.

(** The channel of the end-to-end scenario of the specification. *)
Definition scenario_channel : list ContentAnalyzer.Video :=
  with_views <$> [1000; 2000; 3000; 4000; 100000].

(** Every request returns the id ["yt"]. *)
Definition every_request_succeeds (i : nat) : YouTubeUploader.UploadAttempt :=
  YouTubeUploader.Returned (Some "yt").

(** Three short videos of a small channel, none of which reaches the
    dynamic view threshold; the second is the newest. *)
Definition quiet (views created : Z) : ContentAnalyzer.Video :=
  {| ContentAnalyzer.playCount := views; ContentAnalyzer.diggCount := 3;
     ContentAnalyzer.commentCount := 0; ContentAnalyzer.shareCount := 0;
     ContentAnalyzer.duration := finite 12;
     ContentAnalyzer.createTime := ContentAnalyzer.ct_int created;
     ContentAnalyzer.desc := "quiet" |}.

Definition quiet_channel : list ContentAnalyzer.Video :=
  [quiet 100 1700000000; quiet 200 1700000900; quiet 300 1700000300].

(** Two channels with the same positive view counts, in another order
    and with videos that were never played in between. *)
Definition channel_in_order : list ContentAnalyzer.Video :=
  with_views <$> [5000; 0; 40000; 900].

Definition channel_shuffled : list ContentAnalyzer.Video :=
  with_views <$> [900; 40000; 0; 0; 5000].

(** A video that was played once, with the given number of likes. *)
Definition liked_once_viewed (likes : Z) : ContentAnalyzer.Video :=
  {| ContentAnalyzer.playCount := 1; ContentAnalyzer.diggCount := likes;
     ContentAnalyzer.commentCount := 0; ContentAnalyzer.shareCount := 0;
     ContentAnalyzer.duration := finite 30;
     ContentAnalyzer.createTime := ContentAnalyzer.ct_int 1700000000;
     ContentAnalyzer.desc := "liked" |}.

(** A video without any metric and without a ['createTime'] key. *)
Definition undated_video : ContentAnalyzer.Video :=
  {| ContentAnalyzer.playCount := 0; ContentAnalyzer.diggCount := 0;
     ContentAnalyzer.commentCount := 0; ContentAnalyzer.shareCount := 0;
     ContentAnalyzer.duration := finite 20;
     ContentAnalyzer.createTime := ContentAnalyzer.ct_absent;
     ContentAnalyzer.desc := "undated" |}.

(** A video without any metric whose ['createTime'] is [10^400]. *)
Definition far_future_video : ContentAnalyzer.Video :=
  {| ContentAnalyzer.playCount := 0; ContentAnalyzer.diggCount := 0;
     ContentAnalyzer.commentCount := 0; ContentAnalyzer.shareCount := 0;
     ContentAnalyzer.duration := finite 20;
     ContentAnalyzer.createTime := ContentAnalyzer.ct_int (10 ^ 400);
     ContentAnalyzer.desc := "far future" |}.

(** A well-viewed, well-liked video whose ['duration'] is NaN. *)
Definition nan_duration_video : ContentAnalyzer.Video :=
  {| ContentAnalyzer.playCount := 50000; ContentAnalyzer.diggCount := 5000;
     ContentAnalyzer.commentCount := 0; ContentAnalyzer.shareCount := 0;
     ContentAnalyzer.duration := nan;
     ContentAnalyzer.createTime := ContentAnalyzer.ct_int 1700000000;
     ContentAnalyzer.desc := "no duration" |}.

End Samples.

(** * Properties *)

(** ** Lists *)

(** Mapping over an indexed map a function that ignores the index. *)
Lemma fmap_imap_ignore {A B C : Type} (g : B → C) (h : A → C)
    (f : nat → A → B) (l : list A) :
  (∀ i x, g (f i x) = h x) → g <$> imap f l = h <$> l.
Proof.
  revert f. induction l as [|x l IH]; intros f Hf; simpl; [done|].
  rewrite Hf. f_equal. apply IH. intros i y. apply Hf.
Qed.

(** A part of a sorted list, in the same order, is sorted. *)
Lemma sublist_StronglySorted {A : Type} (R : relation A) (l1 l2 : list A) :
  l1 `sublist_of` l2 → StronglySorted R l2 → StronglySorted R l1.
Proof.
  induction 1 as [|x l1 l2 Hsub IH|x l1 l2 Hsub IH]; intros Hsorted.
  - constructor.
  - apply StronglySorted_inv in Hsorted as [Hs Hall]. constructor; [auto|].
    eapply Forall_forall. intros y Hy.
    eapply Forall_forall in Hall; [done|]. by eapply elem_of_sublist.
  - apply StronglySorted_inv in Hsorted as [Hs _]. auto.
Qed.

(** ** The ledger *)

Module VideoHistoryFacts.
Import VideoHistory Samples.

Lemma strip_at_prefixed (u : string) : strip_at (String "@"%char u) = u.
Proof. reflexivity. Qed.

Lemma strip_at_plain (u : string) : starts_with_at u = false → strip_at u = u.
Proof. intros H. unfold strip_at. by rewrite H. Qed.

Lemma has_video_app (entries : list Entry) (e : Entry) (id : string) :
  has_video (entries ++ [e]) id
  = has_video entries id || String.eqb (video_id e) id.
Proof.
  induction entries as [|x entries IH]; simpl.
  - by destruct (String.eqb (video_id e) id).
  - destruct (String.eqb (video_id x) id); [done | apply IH].
Qed.

(** The state and the result of one [mark_video_uploaded] on a video that
    has an id: one entry more at the end of the channel's list. *)
Lemma mark_video_uploaded_appends (history : History) (username id : string)
    (video_data : VideoData) (y : option string) (now : string) (ok : bool) :
  vd_id video_data = Some id →
  mark_video_uploaded history username video_data y now ok
  = (<[strip_at username :=
         get_channel_history history username ++ [new_entry id video_data y now]]>
       history, ok).
Proof.
  intros Hid. unfold mark_video_uploaded, get_channel_history. rewrite Hid.
  destruct (history !! strip_at username) as [entries|] eqn:Hl; simpl.
  - by rewrite Hl.
  - rewrite lookup_insert_eq. simpl. by rewrite insert_insert_eq.
Qed.

Lemma get_channel_history_mark (history : History) (username id : string)
    (video_data : VideoData) (y : option string) (now : string) (ok : bool) :
  vd_id video_data = Some id →
  get_channel_history
    (fst (mark_video_uploaded history username video_data y now ok)) username
  = get_channel_history history username ++ [new_entry id video_data y now].
Proof.
  intros Hid. rewrite (mark_video_uploaded_appends _ _ id) by done. simpl.
  unfold get_channel_history at 1. by rewrite lookup_insert_eq.
Qed.

Lemma get_upload_count_length (history : History) (username : string) :
  get_upload_count history username
  = length (get_channel_history history username).
Proof. reflexivity. Qed.

Lemma is_video_uploaded_history (history : History) (username id : string) :
  is_video_uploaded history username id
  = has_video (get_channel_history history username) id.
Proof.
  unfold is_video_uploaded, get_channel_history.
  by destruct (history !! strip_at username).
Qed.

(** C1, as amended.  [mark_video_uploaded] makes no membership test and has
    no duplicate result: two submissions of the same video to the same
    channel each return the outcome of their write of the history file,
    and the channel's entry count grows by exactly 2.  After the first
    submission [is_video_uploaded] reports the video, which is the test a
    caller has to make to skip a duplicate. *)
Theorem record_twice_appends_twice (history : History) (username id : string)
    (video_data : VideoData) (y1 y2 : option string) (now1 now2 : string)
    (ok1 ok2 : bool) :
  vd_id video_data = Some id →
  let first := mark_video_uploaded history username video_data y1 now1 ok1 in
  let second := mark_video_uploaded (fst first) username video_data y2 now2 ok2 in
  snd first = ok1 ∧ snd second = ok2 ∧
  get_upload_count (fst second) username
    = (get_upload_count history username + 2)%nat ∧
  is_video_uploaded (fst first) username id = true.
Proof.
  intros Hid first second.
  assert (Hc1 := get_channel_history_mark history username id video_data
                   y1 now1 ok1 Hid).
  assert (Hc2 := get_channel_history_mark (fst first) username id video_data
                   y2 now2 ok2 Hid).
  fold first in Hc1. fold second in Hc2.
  repeat split.
  - subst first. by rewrite (mark_video_uploaded_appends _ _ id).
  - subst second. by rewrite (mark_video_uploaded_appends _ _ id).
  - rewrite !get_upload_count_length, Hc2, Hc1, !length_app. simpl. lia.
  - rewrite is_video_uploaded_history, Hc1, has_video_app. simpl.
    rewrite String.eqb_refl. apply orb_true_r.
Qed.

Lemma record_twice_appends_twice_witness :
  let first := mark_video_uploaded ∅ "creator" clip None "t1" true in
  let second := mark_video_uploaded (fst first) "creator" clip None "t2" true in
  snd first = true ∧ snd second = true ∧
  get_upload_count (fst second) "creator"
    = (get_upload_count ∅ "creator" + 2)%nat ∧
  is_video_uploaded (fst first) "creator" "7301" = true.
Proof.
  apply (record_twice_appends_twice ∅ "creator" "7301" clip). reflexivity.
Defined.

(** C1, as stated, fails: on an empty ledger the second submission of the
    same video returns [True] and the channel ends with two entries. *)
Lemma record_twice_not_idempotent :
  ¬ record_twice_as_specified ∅ "creator" clip None None "t1" "t2" true true.
Proof.
  unfold record_twice_as_specified. intros [_ Hcount]. vm_compute in Hcount.
  discriminate.
Qed.

Example record_twice_count :
  let first := mark_video_uploaded ∅ "creator" clip None "t1" true in
  let second := mark_video_uploaded (fst first) "creator" clip None "t2" true in
  get_upload_count (fst second) "creator" = 2%nat ∧ snd second = true.
Proof. vm_compute. done. Qed.

(** What a caller gets from the membership test: once a video is
    recorded, [filter_new_videos] drops it from the candidates. *)
Lemma filter_new_videos_after_mark (history : History) (username id : string)
    (video_data : VideoData) (y : option string) (now : string) (ok : bool) :
  vd_id video_data = Some id →
  starts_with_at (strip_at username) = false →
  filter_new_videos
    (fst (mark_video_uploaded history username video_data y now ok))
    username [video_data]
  = Some [].
Proof.
  intros Hid Hplain. unfold filter_new_videos. simpl. rewrite Hid.
  rewrite is_video_uploaded_history.
  unfold get_channel_history. rewrite (strip_at_plain _ Hplain).
  fold (get_channel_history
          (fst (mark_video_uploaded history username video_data y now ok))
          username).
  rewrite (get_channel_history_mark _ _ id) by done.
  rewrite has_video_app. simpl. by rewrite String.eqb_refl, orb_true_r.
Qed.

(** [filter_new_videos] strips the user name twice, once itself and once
    in [is_video_uploaded]: under ["@@bob"] it looks at channel ["bob"],
    where the record operation under the same name wrote to ["@bob"]. *)
Example filter_new_videos_strips_twice :
  let recorded := fst (mark_video_uploaded ∅ "@@bob" clip None "t1" true) in
  filter_new_videos recorded "@@bob" [clip] = Some [clip] ∧
  is_video_uploaded recorded "@@bob" "7301" = true.
Proof. vm_compute. done. Qed.

(** C10, as amended.  For a user name [u] that does not itself begin with
    '@', the membership test, the record operation, the per-channel
    history and the upload count give the same result on ['@' + u] and on
    [u], and a video recorded under ['@' + u] is reported as uploaded
    under [u]. *)
Theorem at_prefix_stripped (u : string) :
  starts_with_at u = false → at_prefix_irrelevant u.
Proof.
  intros Hu history id video_data y now ok.
  assert (Hs : strip_at (String "@"%char u) = strip_at u)
    by (by rewrite strip_at_prefixed, strip_at_plain).
  unfold is_video_uploaded, mark_video_uploaded, get_channel_history,
    get_upload_count.
  rewrite Hs. repeat split.
  intros Hid.
  pose proof (get_channel_history_mark history u id video_data y now ok Hid) as Hc.
  pose proof (is_video_uploaded_history
    (fst (mark_video_uploaded history u video_data y now ok)) u id) as Hi.
  rewrite Hc, has_video_app in Hi. simpl in Hi.
  rewrite String.eqb_refl, orb_true_r in Hi.
  unfold is_video_uploaded, mark_video_uploaded in Hi. exact Hi.
Qed.

Lemma at_prefix_stripped_witness : at_prefix_irrelevant "creator".
Proof. apply (at_prefix_stripped "creator"). reflexivity. Defined.

(** C10, as stated for every user name, fails on a name that begins with
    '@': a video recorded under ["@@bob"] is stored under ["@bob"], and a
    query under ["@bob"] looks under ["bob"]. *)
Lemma at_prefix_not_irrelevant : ¬ at_prefix_irrelevant "@bob".
Proof.
  intros H.
  destruct (H ∅ "7301" clip None "t1" true) as (_ & _ & _ & _ & Hq).
  specialize (Hq eq_refl). vm_compute in Hq. discriminate.
Qed.

End VideoHistoryFacts.

(** ** More of the ledger *)

Module VideoHistoryMore.
Import VideoHistory Samples VideoHistoryFacts.

(** X1.  Recording a video that has an id appends its entry at the end of
    the channel's list, whatever the outcome of the file write, and leaves
    the list of every other channel as it was. *)
Theorem mark_appends_in_order (history : History) (username id : string)
    (video_data : VideoData) (y : option string) (now : string) (ok : bool) :
  vd_id video_data = Some id →
  let history1 := fst (mark_video_uploaded history username video_data y now ok) in
  get_channel_history history1 username
    = get_channel_history history username ++ [new_entry id video_data y now] ∧
  ∀ other, strip_at other ≠ strip_at username →
    get_channel_history history1 other = get_channel_history history other.
Proof.
  intros Hid history1. subst history1.
  rewrite (mark_video_uploaded_appends _ _ id) by done. simpl. split.
  - unfold get_channel_history at 1. by rewrite lookup_insert_eq.
  - intros other Hne. unfold get_channel_history at 1 3.
    by rewrite lookup_insert_ne.
Qed.

Lemma mark_appends_in_order_witness :
  let history1 := fst (mark_video_uploaded ∅ "@creator" clip None "t1" false) in
  get_channel_history history1 "@creator"
    = get_channel_history ∅ "@creator" ++ [new_entry "7301" clip None "t1"] ∧
  ∀ other, strip_at other ≠ strip_at "@creator" →
    get_channel_history history1 other = get_channel_history ∅ other.
Proof.
  apply (mark_appends_in_order ∅ "@creator" "7301" clip None "t1" false).
  reflexivity.
Defined.

(** X2.  Recording a video without ['id'] returns [False] and records
    nothing: every channel history and every membership test is as
    before.  The channel has nevertheless been created in the dictionary,
    with an empty list if it was not there. *)
Theorem mark_without_id (history : History) (username : string)
    (video_data : VideoData) (y : option string) (now : string) (ok : bool) :
  vd_id video_data = None →
  let out := mark_video_uploaded history username video_data y now ok in
  snd out = false ∧
  (∀ other, get_channel_history (fst out) other = get_channel_history history other) ∧
  (∀ other id, is_video_uploaded (fst out) other id
               = is_video_uploaded history other id) ∧
  is_Some (fst out !! strip_at username).
Proof.
  intros Hid out. subst out. unfold mark_video_uploaded. rewrite Hid.
  destruct (history !! strip_at username) as [entries|] eqn:Hl; simpl.
  - repeat split; by eauto.
  - assert (Hh : ∀ other,
      get_channel_history (<[strip_at username := []]> history) other
      = get_channel_history history other).
    { intros other. unfold get_channel_history.
      destruct (decide (strip_at username = strip_at other)) as [<-|Hne].
      - by rewrite lookup_insert_eq, Hl.
      - by rewrite lookup_insert_ne. }
    repeat split; [done | |by rewrite lookup_insert_eq].
    intros other id. by rewrite !is_video_uploaded_history, Hh.
Qed.

Lemma mark_without_id_witness :
  let out := mark_video_uploaded ∅ "creator"
               {| vd_id := None; vd_caption := None; vd_views := 0;
                  vd_likes := 0; vd_comments := 0; vd_shares := 0 |}
               None "t1" true in
  snd out = false ∧
  (∀ other, get_channel_history (fst out) other = get_channel_history ∅ other) ∧
  (∀ other id, is_video_uploaded (fst out) other id = is_video_uploaded ∅ other id) ∧
  is_Some (fst out !! strip_at "creator").
Proof.
  apply (mark_without_id ∅ "creator"
           {| vd_id := None; vd_caption := None; vd_views := 0;
              vd_likes := 0; vd_comments := 0; vd_shares := 0 |}
           None "t1" true).
  reflexivity.
Defined.

(** X3.  After a video with id [id] is recorded for a channel, the
    membership test of that channel answers [True] for [id] and as before
    for every other id, also when the write of the history file failed
    and the call returned [False]. *)
Theorem membership_after_mark (history : History) (username id : string)
    (video_data : VideoData) (y : option string) (now : string) (ok : bool) :
  vd_id video_data = Some id →
  ∀ id', is_video_uploaded
           (fst (mark_video_uploaded history username video_data y now ok))
           username id'
         = is_video_uploaded history username id' || String.eqb id id'.
Proof.
  intros Hid id'. rewrite !is_video_uploaded_history.
  rewrite (get_channel_history_mark _ _ id) by done.
  by rewrite has_video_app.
Qed.

Lemma membership_after_mark_witness :
  is_video_uploaded
    (fst (mark_video_uploaded ∅ "creator" clip None "t1" false))
    "creator" "7302"
  = is_video_uploaded ∅ "creator" "7302" || String.eqb "7301" "7302".
Proof.
  apply (membership_after_mark ∅ "creator" "7301" clip None "t1" false).
  reflexivity.
Defined.

Lemma filter_new_videos_loop_spec (history : History) (username : string)
    (videos : list VideoData) :
  Forall (λ v, is_Some (vd_id v)) videos →
  ∃ new_videos,
    filter_new_videos_loop history username videos = Some new_videos ∧
    new_videos `sublist_of` videos ∧
    ∀ v id, vd_id v = Some id →
      (v ∈ new_videos ↔ v ∈ videos ∧ is_video_uploaded history username id = false).
Proof.
  intros Hids.
  induction Hids as [|v videos [id Hid] Hids (new_videos & Hloop & Hsub & Hmem)].
  - exists []. split; [done|]. split; [done|]. intros v id _.
    split; [by intros ?%elem_of_nil | by intros [?%elem_of_nil _]].
  - simpl. rewrite Hid, Hloop.
    destruct (is_video_uploaded history username id) eqn:Hup.
    + exists new_videos. split; [done|]. split; [by apply sublist_cons|].
      intros w idw Hw. rewrite (Hmem w idw Hw), elem_of_cons.
      split; [tauto|]. intros [[->|Hin] Hnot]; [congruence | done].
    + exists (v :: new_videos). split; [done|]. split; [by apply sublist_skip|].
      intros w idw Hw. rewrite !elem_of_cons, (Hmem w idw Hw).
      split; [|tauto]. intros [->|[Hin Hnot]]; [|tauto].
      split; [by left | congruence].
Qed.

(** X4.  When every candidate has an id, [filter_new_videos] returns the
    candidates in their input order, without those the membership test
    reports as uploaded and with all the others.  The test is made on the
    user name already cleaned once, so a second leading '@' is stripped
    as well. *)
Theorem filter_new_videos_keeps_unrecorded (history : History)
    (username : string) (videos : list VideoData) :
  Forall (λ v, is_Some (vd_id v)) videos →
  ∃ new_videos,
    filter_new_videos history username videos = Some new_videos ∧
    new_videos `sublist_of` videos ∧
    ∀ v id, vd_id v = Some id →
      (v ∈ new_videos ↔
       v ∈ videos ∧ is_video_uploaded history (strip_at username) id = false).
Proof. intros Hids. by apply filter_new_videos_loop_spec. Qed.

Lemma filter_new_videos_keeps_unrecorded_witness :
  ∃ new_videos,
    filter_new_videos ∅ "@creator" [clip_a; clip_b] = Some new_videos ∧
    new_videos `sublist_of` [clip_a; clip_b] ∧
    ∀ v id, vd_id v = Some id →
      (v ∈ new_videos ↔
       v ∈ [clip_a; clip_b] ∧ is_video_uploaded ∅ (strip_at "@creator") id = false).
Proof.
  apply (filter_new_videos_keeps_unrecorded ∅ "@creator" [clip_a; clip_b]).
  repeat constructor; by eexists.
Defined.

(** X5.  A candidate without ['id'] makes [filter_new_videos] fail with
    [KeyError], whatever the other candidates are. *)
Theorem filter_new_videos_missing_id (history : History) (username : string)
    (videos : list VideoData) :
  Exists (λ v, vd_id v = None) videos →
  filter_new_videos history username videos = None.
Proof.
  intros Hex. unfold filter_new_videos.
  induction Hex as [v videos Hv|v videos _ IH]; simpl.
  - by rewrite Hv.
  - destruct (vd_id v); [|done]. by rewrite IH.
Qed.

Lemma filter_new_videos_missing_id_witness :
  filter_new_videos ∅ "creator"
    [clip_a; {| vd_id := None; vd_caption := None; vd_views := 0;
                vd_likes := 0; vd_comments := 0; vd_shares := 0 |}]
  = None.
Proof.
  apply filter_new_videos_missing_id.
  apply Exists_cons_tl, Exists_cons_hd. reflexivity.
Defined.

Lemma mark_video_uploaded_length (history : History) (username : string)
    (video_data : VideoData) (y : option string) (now : string) (ok : bool) :
  let out := mark_video_uploaded history username video_data y now ok in
  length (get_channel_history (fst out) username)
  = (length (get_channel_history history username)
     + match vd_id video_data with Some _ => 1 | None => 0 end)%nat ∧
  snd out = match vd_id video_data with Some _ => ok | None => false end.
Proof.
  cbv zeta. destruct (vd_id video_data) as [id|] eqn:Hid.
  - rewrite (get_channel_history_mark _ _ id) by done.
    rewrite (mark_video_uploaded_appends _ _ id) by done.
    rewrite length_app. simpl. split; [lia | done].
  - unfold mark_video_uploaded, get_channel_history. rewrite Hid.
    destruct (history !! strip_at username) eqn:Hl; simpl.
    + rewrite Hl. simpl. split; [lia | done].
    + rewrite lookup_insert_eq. simpl. split; [lia | done].
Qed.

Lemma mark_videos_loop_spec (username : string)
    (youtube_ids : option (list string)) (now : nat → string)
    (save_ok : nat → bool) (videos : list VideoData) :
  ∀ (history : History) (i : nat) (success : bool),
    let out := mark_videos_loop history username youtube_ids now save_ok i
                 videos success in
    length (get_channel_history (fst out) username)
    = (length (get_channel_history history username)
       + length (filter (λ v, is_Some (vd_id v)) videos))%nat ∧
    (snd out = true ↔
     success = true ∧
     ∀ j v, videos !! j = Some v →
       is_Some (vd_id v) ∧ save_ok (i + j)%nat = true).
Proof.
  induction videos as [|video rest IH]; intros history i success; cbv zeta.
  - simpl. split; [lia|]. split; [|tauto]. intros ->. split; [done|].
    intros j v Hj. by rewrite lookup_nil in Hj.
  - simpl mark_videos_loop.
    set (yid := match youtube_ids with Some ids => ids !! i | None => None end).
    destruct (mark_video_uploaded_length history username video yid (now i)
                (save_ok i)) as [Hlen Hret].
    destruct (mark_video_uploaded history username video yid (now i) (save_ok i))
      as [history1 marked] eqn:Hmark.
    simpl in Hlen, Hret.
    destruct (IH history1 (S i) (if marked then success else false))
      as [IHlen IHret].
    split.
    + rewrite IHlen, Hlen, filter_cons.
      destruct (decide (is_Some (vd_id video))) as [[id Hid]|Hno].
      * rewrite Hid. simpl. lia.
      * destruct (vd_id video); [exfalso; eauto|]. simpl. lia.
    + rewrite IHret. split.
      * intros [Hs Hall]. destruct marked; [|done]. split; [done|].
        intros [|j] v Hj; simpl in Hj.
        -- injection Hj as <-. rewrite Nat.add_0_r.
           destruct (vd_id video); [by eauto | done].
        -- replace (i + S j)%nat with (S i + j)%nat by lia. by apply Hall.
      * intros [-> Hall].
        destruct (Hall 0%nat video eq_refl) as [[id Hid] Hok].
        rewrite Nat.add_0_r in Hok. rewrite Hid, Hok in Hret. subst marked.
        split; [done|]. intros j v Hj.
        replace (S i + j)%nat with (i + S j)%nat by lia. by apply Hall.
Qed.

(** X6.  [mark_videos_uploaded] adds to the channel one entry for each
    video of the batch that has an id, and returns [True] exactly when
    every video has an id and every write of the history file succeeded.
    The channel is the one named by the user name cleaned twice. *)
Theorem mark_videos_uploaded_count (history : History) (username : string)
    (videos : list VideoData) (youtube_ids : option (list string))
    (now : nat → string) (save_ok : nat → bool) :
  let out := mark_videos_uploaded history username videos youtube_ids now
               save_ok in
  get_upload_count (fst out) (strip_at username)
  = (get_upload_count history (strip_at username)
     + length (filter (λ v, is_Some (vd_id v)) videos))%nat ∧
  (snd out = true ↔
   ∀ j v, videos !! j = Some v → is_Some (vd_id v) ∧ save_ok j = true).
Proof.
  cbv zeta. unfold mark_videos_uploaded.
  destruct (mark_videos_loop_spec (strip_at username) youtube_ids now save_ok
              videos history 0 true) as [Hlen Hret].
  split; [by rewrite !get_upload_count_length|].
  rewrite Hret. simpl. split; [tauto | by split].
Qed.

Lemma uploaded_refs_spec (channel : string) (entries : list Entry)
    (r : UploadedRef) :
  r ∈ uploaded_refs channel entries ↔
  ∃ e, e ∈ entries ∧ youtube_id e = Some (r_youtube_id r) ∧
    str_truthy (r_youtube_id r) = true ∧ str_truthy (video_id e) = true ∧
    r = {| r_channel := channel; r_video_id := video_id e;
           r_youtube_id := r_youtube_id r; r_title := title e |}.
Proof.
  induction entries as [|e entries IH]; simpl.
  - split; [by intros ?%elem_of_nil | by intros (e & ?%elem_of_nil & _)].
  - assert (Hrest : r ∈ uploaded_refs channel entries →
      ∃ e0, e0 ∈ e :: entries ∧ youtube_id e0 = Some (r_youtube_id r) ∧
        str_truthy (r_youtube_id r) = true ∧ str_truthy (video_id e0) = true ∧
        r = {| r_channel := channel; r_video_id := video_id e0;
               r_youtube_id := r_youtube_id r; r_title := title e0 |}).
    { intros (e0 & Hin & H)%IH. exists e0. split; [by right | done]. }
    destruct (youtube_id e) as [yt|] eqn:Hyt.
    + destruct (str_truthy yt && str_truthy (video_id e)) eqn:Ht.
      * apply andb_true_iff in Ht as [Ht1 Ht2]. rewrite elem_of_cons. split.
        -- intros [->|Hin]; [|by apply Hrest].
           exists e. simpl. by repeat split; [left|..].
        -- intros (e0 & [->|Hin]%elem_of_cons & Hy & H1 & H2 & Hr).
           ++ left. rewrite Hr. f_equal. congruence.
           ++ right. apply IH. by exists e0.
      * split; [by apply Hrest|].
        intros (e0 & [->|Hin]%elem_of_cons & Hy & H1 & H2 & Hr).
        -- rewrite Hyt in Hy. injection Hy as ->.
           rewrite H1, H2 in Ht. done.
        -- apply IH. by exists e0.
    + split; [by apply Hrest|].
      intros (e0 & [->|Hin]%elem_of_cons & Hy & H1 & H2 & Hr); [congruence|].
      apply IH. by exists e0.
Qed.

(** X7.  [get_all_uploaded_videos] reports exactly the entries of the
    ledger whose YouTube id and video id are both present and not empty,
    each with the name of the channel it is stored under: an entry
    recorded without a YouTube id is never reported. *)
Theorem get_all_uploaded_videos_spec (history : History) (r : UploadedRef) :
  r ∈ get_all_uploaded_videos history ↔
  ∃ entries e,
    history !! r_channel r = Some entries ∧ e ∈ entries ∧
    youtube_id e = Some (r_youtube_id r) ∧
    str_truthy (r_youtube_id r) = true ∧ str_truthy (video_id e) = true ∧
    r_video_id r = video_id e ∧ r_title r = title e.
Proof.
  unfold get_all_uploaded_videos. rewrite list_elem_of_bind. split.
  - intros ([channel entries] & (e & Hin & Hy & H1 & H2 & Hr)%uploaded_refs_spec
            & Hl%elem_of_map_to_list).
    exists entries, e. rewrite Hr. simpl. by repeat split.
  - intros (entries & e & Hl & Hin & Hy & H1 & H2 & Hv & Ht).
    exists (r_channel r, entries). split; [|by apply elem_of_map_to_list].
    apply uploaded_refs_spec. exists e. repeat split; try done.
    destruct r. simpl in *. by subst.
Qed.

End VideoHistoryMore.

(** ** The quota and the batch upload *)

Module YouTubeUploaderFacts.
Import YouTubeUploader Samples.

Lemma quota_cost_insert : quota_cost "videos.insert" = 1600.
Proof. reflexivity. Qed.

Lemma reserve_quota_value : reserve_quota = 500.
Proof. reflexivity. Qed.

(** The check on ["videos.insert"], with the constants evaluated. *)
Lemma check_insert (quota_data : QuotaData) (today : string) (count : Z) :
  check_quota_available quota_data today "videos.insert" count
  = if 1600 * count >? 9500 - used_today quota_data today
    then Z.quot (9500 - used_today quota_data today) 1600 >? 0
    else true.
Proof.
  unfold check_quota_available. rewrite quota_cost_insert, reserve_quota_value.
  change (String.eqb "videos.insert" "videos.insert") with true.
  unfold daily_quota_limit. cbv zeta.
  replace (10000 - used_today quota_data today - 500)
    with (9500 - used_today quota_data today) by lia.
  by destruct (Z.quot _ _ >? 0).
Qed.

Lemma possible_uploads_value (quota_data : QuotaData) (today : string) :
  possible_uploads quota_data today
  = Z.quot (9500 - used_today quota_data today) 1600.
Proof.
  unfold possible_uploads. rewrite quota_cost_insert, reserve_quota_value.
  unfold daily_quota_limit. f_equal. lia.
Qed.

(** A refused check means that not even one upload is affordable: the
    branch of [_upload_immediately] that cuts the batch is entered only
    with [possible_uploads <= 0]. *)
Lemma check_refused_nothing_affordable (quota_data : QuotaData)
    (today : string) (count : Z) :
  check_quota_available quota_data today "videos.insert" count = false →
  possible_uploads quota_data today ≤ 0.
Proof.
  rewrite check_insert, possible_uploads_value.
  destruct (1600 * count >? _); [|done].
  destruct (Z.quot _ _ >? 0) eqn:E; [done|]. lia.
Qed.

(** The check for a single upload succeeds exactly when one is affordable. *)
Lemma check_one (quota_data : QuotaData) (today : string) :
  check_quota_available quota_data today "videos.insert" 1
  = (0 <? possible_uploads quota_data today).
Proof.
  rewrite check_insert, possible_uploads_value.
  set (e := 9500 - used_today quota_data today).
  destruct (1600 * 1 >? e) eqn:E1.
  - destruct (Z.quot e 1600 >? 0) eqn:E2; symmetry.
    + apply Z.ltb_lt. lia.
    + apply Z.ltb_ge. lia.
  - symmetry. apply Z.ltb_lt.
    assert (1600 ≤ e) by lia.
    pose proof (Z.quot_le_mono 1600 e 1600 ltac:(lia) ltac:(lia)) as Hq.
    rewrite Z.quot_same in Hq by lia. lia.
Qed.

(** The effect of tracking [count] uploads after a successful check. *)
Lemma track_insert_after_check (quota_data : QuotaData) (today : string)
    (count : Z) :
  date_ok quota_data today = true →
  0 ≤ count →
  check_quota_available quota_data today "videos.insert" count = true →
  ∃ day1,
    track_api_usage quota_data today "videos.insert" count
      = (<[today := day1]> quota_data, true) ∧
    used day1 = Some (used_today quota_data today + count * 1600) ∧
    remaining day1
      = Some (Z.max 0 (daily_quota_limit
                       - (used_today quota_data today + count * 1600))) ∧
    is_Some (operations day1).
Proof.
  intros Hok HN Hcheck. unfold track_api_usage.
  rewrite quota_cost_insert.
  rewrite check_insert in Hcheck.
  unfold date_ok in Hok. unfold used_today in *.
  destruct (quota_data !! today) as [day|] eqn:Hday; simpl.
  - unfold day_ok in Hok.
    destruct (used day) as [u|] eqn:Hu; [|done].
    destruct (operations day) as [ops|] eqn:Hops; simpl in *.
    + eexists. split; [done|]. simpl.
      replace (1600 * count) with (count * 1600) by lia. by repeat split.
    + apply Z.eqb_eq in Hok. subst u. unfold daily_quota_limit in Hcheck.
      exfalso.
      destruct (1600 * count >? 9500 - 10000) eqn:E; [|lia].
      vm_compute in Hcheck. discriminate.
  - eexists. split; [done|]. simpl.
    replace (1600 * count) with (count * 1600) by lia. by repeat split.
Qed.




Example overspent_day :
  let committed := track_api_usage ∅ today "videos.insert" 7 in
  check_quota_available ∅ today "videos.insert" 7 = true ∧
  used <$> (fst committed !! today) = Some (Some 11200) ∧
  remaining <$> (fst committed !! today) = Some (Some 0).
Proof. vm_compute. done. Qed.

(** C9.  With 8500 of the 10000 units used today, the effective remaining
    budget is 10000 - 8500 - 500 = 1000 and no upload is affordable.  A
    batch of three videos is then returned with nothing in ["successful"]
    and the three videos in ["failed"] with the error "Quota exceeded";
    whatever the upload requests would have done, none is sent and the
    quota file is left as it was. *)
Theorem exhausted_budget_rejects_batch (api : bool) (today : string)
    (attempt : nat → UploadAttempt) (quota_data : QuotaData)
    (f1 f2 f3 : string) (d1 d2 d3 : VideoData) :
  used_today quota_data today = 8500 →
  daily_quota_limit - used_today quota_data today - reserve_quota = 1000 ∧
  possible_uploads quota_data today = 0 ∧
  check_quota_available quota_data today "videos.insert" 3 = false ∧
  _upload_immediately api today attempt [f1; f2; f3] [d1; d2; d3] quota_data
  = Ok ({| successful := [];
           failed := [quota_failure 0 f1 d1; quota_failure 1 f2 d2;
                      quota_failure 2 f3 d3] |},
        quota_data).
Proof.
  intros Hused.
  assert (Hp : possible_uploads quota_data today = 0)
    by (rewrite possible_uploads_value, Hused; reflexivity).
  assert (Hc : check_quota_available quota_data today "videos.insert" 3 = false)
    by (rewrite check_insert, Hused; reflexivity).
  repeat split; [by rewrite Hused | done | done |].
  unfold _upload_immediately. simpl length.
  change (Z.of_nat 3) with 3. rewrite Hc. simpl.
  unfold quota_limited. by rewrite Hp.
Qed.

Lemma exhausted_budget_rejects_batch_witness :
  daily_quota_limit - used_today quota_8500 today - reserve_quota = 1000 ∧
  possible_uploads quota_8500 today = 0 ∧
  check_quota_available quota_8500 today "videos.insert" 3 = false ∧
  _upload_immediately true today first_request_fails
    ["a.mp4"; "b.mp4"; "c.mp4"] [clip_a; clip_b; clip_c] quota_8500
  = Ok ({| successful := [];
           failed := [quota_failure 0 "a.mp4" clip_a;
                      quota_failure 1 "b.mp4" clip_b;
                      quota_failure 2 "c.mp4" clip_c] |},
        quota_8500).
Proof.
  apply (exhausted_budget_rejects_batch true today first_request_fails
           quota_8500 "a.mp4" "b.mp4" "c.mp4" clip_a clip_b clip_c).
  reflexivity.
Defined.

(** *** The batch upload *)

Lemma upload_video_refused (quota_data : QuotaData) (today : string)
    (attempt : UploadAttempt) :
  possible_uploads quota_data today ≤ 0 →
  upload_video true quota_data today attempt = (None, quota_data).
Proof.
  intros Hk. unfold upload_video. simpl. rewrite check_one.
  by destruct (Z.ltb_spec 0 (possible_uploads quota_data today)); [lia|].
Qed.

Lemma upload_video_sent (quota_data : QuotaData) (today : string)
    (attempt : UploadAttempt) (video_id : string) :
  attempt = Returned (Some video_id) →
  str_truthy video_id = true →
  date_ok quota_data today = true →
  0 < possible_uploads quota_data today →
  ∃ quota_data1,
    upload_video true quota_data today attempt = (Some video_id, quota_data1) ∧
    possible_uploads quota_data1 today = possible_uploads quota_data today - 1 ∧
    date_ok quota_data1 today = true.
Proof.
  intros -> Htruthy Hok Hk.
  assert (Hcheck : check_quota_available quota_data today "videos.insert" 1 = true).
  { rewrite check_one. by apply Z.ltb_lt. }
  destruct (track_insert_after_check _ _ 1 Hok ltac:(lia) Hcheck)
    as (day1 & Htrack & Hu & _ & Hops).
  exists (<[today := day1]> quota_data).
  unfold upload_video. simpl. rewrite Hcheck, Htruthy, Htrack. simpl.
  split; [done|]. split.
  - rewrite !possible_uploads_value in *. unfold used_today at 1.
    rewrite lookup_insert_eq, Hu. simpl.
    set (u := used_today quota_data today) in *.
    replace (9500 - (u + 1 * 1600)) with ((9500 - u) + (-1) * 1600) by lia.
    assert (1600 ≤ 9500 - u).
    { destruct (Z.le_gt_cases 1600 (9500 - u)); [done|].
      destruct (Z.le_gt_cases 0 (9500 - u)).
      - rewrite Z.quot_small in Hk; lia.
      - pose proof (Z.quot_le_mono (9500 - u) 0 1600 ltac:(lia) ltac:(lia)) as Hq.
        rewrite Z.quot_0_l in Hq; lia. }
    rewrite Z.quot_add; [lia | lia | nia].
  - unfold date_ok. rewrite lookup_insert_eq. unfold day_ok. rewrite Hu.
    by destruct Hops as [ops ->].
Qed.


(** When every request that is sent succeeds, the loop uploads the videos
    one by one until the check inside [upload_video] refuses: the first
    [possible_uploads] videos succeed and the others fail. *)
Lemma upload_loop_all_succeed (today : string) (attempt : nat → UploadAttempt)
    (items : list (string * VideoData)) :
  all_requests_succeed attempt →
  ∀ (i : nat) (results : Results) (quota_data : QuotaData),
    date_ok quota_data today = true →
    let k := Z.to_nat (possible_uploads quota_data today) in
    let out := upload_loop true today attempt i items results quota_data in
    s_file <$> successful out.1
      = (s_file <$> successful results) ++ (take k items).*1 ∧
    f_file <$> failed out.1
      = (f_file <$> failed results) ++ (drop k items).*1.
Proof.
  intros Hall. induction items as [|[video_file video_data] rest IH];
    intros i results quota_data Hok; cbv zeta.
  - simpl. rewrite take_nil, drop_nil. simpl. by rewrite !app_nil_r.
  - simpl upload_loop.
    destruct (Z.lt_ge_cases 0 (possible_uploads quota_data today)) as [Hk|Hk].
    + destruct (Hall i) as (video_id & Hattempt & Htruthy).
      destruct (upload_video_sent _ _ _ _ Hattempt Htruthy Hok Hk)
        as (quota_data1 & Hup & Hk1 & Hok1).
      rewrite Hup.
      destruct (IH (S i)
        {| successful := successful results ++
             [{| s_file := video_file; s_video_id := video_id;
                 s_title := title_of i video_data |}];
           failed := failed results |} quota_data1 Hok1) as [IHs IHf].
      rewrite IHs, IHf, Hk1. simpl.
      replace (Z.to_nat (possible_uploads quota_data today))
        with (S (Z.to_nat (possible_uploads quota_data today - 1))) by lia.
      simpl. rewrite fmap_app. simpl. by rewrite <- app_assoc.
    + rewrite upload_video_refused by done.
      destruct (IH (S i)
        {| successful := successful results;
           failed := failed results ++
             [{| f_file := video_file; f_title := title_of i video_data;
                 f_error := "Upload failed" |}] |} quota_data Hok) as [IHs IHf].
      rewrite IHs, IHf.
      replace (Z.to_nat (possible_uploads quota_data today)) with 0%nat by lia.
      simpl. rewrite fmap_app. simpl.
      by rewrite <- app_assoc, app_nil_r.
Qed.

(** Where the partial batch of the specification is obtained: when every
    request that is sent succeeds. *)
Lemma partial_batch_when_requests_succeed (today : string)
    (attempt : nat → UploadAttempt) (video_files : list string)
    (video_data_list : list VideoData) (quota_data : QuotaData) :
  all_requests_succeed attempt →
  date_ok quota_data today = true →
  partial_batch_as_specified true today attempt video_files video_data_list
    quota_data.
Proof.
  intros Hall Hok Hlen Hk. unfold _upload_immediately.
  rewrite Hlen, Nat.eqb_refl. simpl negb. cbv iota.
  destruct (check_quota_available _ _ _ _) eqn:Hcheck; simpl.
  - destruct (upload_loop_all_succeed today attempt
                (zip video_files video_data_list) Hall 0
                {| successful := []; failed := [] |} quota_data Hok)
      as [Hs Hf].
    simpl in Hs, Hf.
    destruct (upload_loop _ _ _ _ _ _ _) as [results quota_data1] eqn:Hloop.
    exists results, quota_data1. split; [done|]. simpl in Hs, Hf.
    rewrite Hs, Hf, fmap_take, fmap_drop, fst_zip by lia. done.
  - apply check_refused_nothing_affordable in Hcheck. lia.
Qed.

(** The cutting branch itself cannot finish on a batch that is partly
    affordable: the lists are cut to [possible_uploads] elements and then
    indexed at [possible_uploads]. *)
Lemma quota_limited_raises (api : bool) (today : string)
    (attempt : nat → UploadAttempt) (k : Z) (video_files : list string)
    (video_data_list : list VideoData) (quota_data : QuotaData) :
  0 < k < Z.of_nat (length video_files) →
  quota_limited api today attempt k video_files video_data_list quota_data
  = Raise IndexError.
Proof.
  intros Hk. unfold quota_limited.
  destruct (Z.leb_spec k 0) as [|_]; [lia|].
  replace (length video_files - Z.to_nat k)%nat
    with (S (length video_files - Z.to_nat k - 1)) by lia.
  simpl. rewrite (lookup_ge_None_2 (take _ video_data_list)); [done|].
  rewrite length_take. lia.
Qed.

(** [_upload_immediately] always returns: the cutting branch is entered
    only when nothing is affordable. *)
Lemma upload_immediately_returns (api : bool) (today : string)
    (attempt : nat → UploadAttempt) (video_files : list string)
    (video_data_list : list VideoData) (quota_data : QuotaData) :
  ∃ out, _upload_immediately api today attempt video_files video_data_list
           quota_data = Ok out.
Proof.
  unfold _upload_immediately.
  destruct (negb (length video_files =? length video_data_list)%nat);
    [by eexists|].
  destruct (check_quota_available _ _ _ _) eqn:Hcheck; simpl; [by eexists|].
  apply check_refused_nothing_affordable in Hcheck. unfold quota_limited.
  destruct (Z.leb_spec (possible_uploads quota_data today) 0); [by eexists|lia].
Qed.

(** The end-to-end scenario of the specification with an unused day: five
    uploads are affordable, all five succeed and 8000 units are used. *)
Example five_uploads_on_a_fresh_day :
  possible_uploads ∅ today = 5 ∧
  ∃ results quota_data1,
    _upload_immediately true today every_request_succeeds
      ["1.mp4"; "2.mp4"; "3.mp4"; "4.mp4"; "5.mp4"]
      [clip_a; clip_b; clip_c; clip_a; clip_b] ∅
    = Ok (results, quota_data1) ∧
    s_file <$> successful results
      = ["1.mp4"; "2.mp4"; "3.mp4"; "4.mp4"; "5.mp4"] ∧
    failed results = [] ∧
    used_today quota_data1 today = 8000.
Proof.
  split; [reflexivity|]. eexists _, _.
  split; [vm_compute; reflexivity|]. by vm_compute.
Qed.

(** C2, on a batch the code can receive.  The day has 6000 units used, so
    [k = int(3500 / 1600) = 2] of the three uploads are affordable.  The
    first request fails; the second and the third succeed.  The call
    returns with the second and the third video in ["successful"] and the
    first in ["failed"], and 9200 units used: the third video, which is
    not among the first [k], has been uploaded. *)
Theorem partial_batch_overruns_prefix :
  possible_uploads quota_6000 today = 2 ∧
  check_quota_available quota_6000 today "videos.insert" 3 = true ∧
  (∃ quota_data1,
     _upload_immediately true today first_request_fails
       ["a.mp4"; "b.mp4"; "c.mp4"] [clip_a; clip_b; clip_c] quota_6000
     = Ok ({| successful :=
                [{| s_file := "b.mp4"; s_video_id := "yt-b"; s_title := "clip b" |};
                 {| s_file := "c.mp4"; s_video_id := "yt-c"; s_title := "Video 3" |}];
              failed :=
                [{| f_file := "a.mp4"; f_title := "clip a";
                    f_error := "Upload failed" |}] |},
           quota_data1) ∧
     used_today quota_data1 today = 9200) ∧
  ¬ partial_batch_as_specified true today first_request_fails
      ["a.mp4"; "b.mp4"; "c.mp4"] [clip_a; clip_b; clip_c] quota_6000.
Proof.
  split; [reflexivity|]. split; [reflexivity|]. split.
  - eexists. split; [vm_compute; reflexivity | reflexivity].
  - unfold partial_batch_as_specified. intros H.
    destruct (H eq_refl) as (results & quota_data1 & Hrun & Hs & _).
    { vm_compute. split; reflexivity. }
    vm_compute in Hrun. injection Hrun as <- _.
    vm_compute in Hs. discriminate.
Qed.

End YouTubeUploaderFacts.

(** ** More of the quota and of the uploads *)

Module YouTubeUploaderMore.
Import YouTubeUploader Samples YouTubeUploaderFacts.

Lemma quota_cost_pos (operation : string) : 0 < quota_cost operation.
Proof.
  unfold quota_cost, QUOTA_COSTS. simpl.
  repeat (rewrite lookup_insert; case_decide; [simpl; lia|]).
  rewrite lookup_empty. simpl. lia.
Qed.

(** X8.  If the check accepts [count] operations of some kind, it accepts
    every smaller count of that kind on the same quota file. *)
Theorem check_accepts_fewer (quota_data : QuotaData) (today operation : string)
    (count fewer : Z) :
  0 ≤ fewer ≤ count →
  check_quota_available quota_data today operation count = true →
  check_quota_available quota_data today operation fewer = true.
Proof.
  intros Hle. unfold check_quota_available.
  pose proof (quota_cost_pos operation) as Hc.
  set (c := quota_cost operation) in *.
  set (r := daily_quota_limit - used_today quota_data today).
  destruct (String.eqb operation "videos.insert").
  - destruct (Z.gtb_spec (c * count) (r - reserve_quota));
      destruct (Z.gtb_spec (c * fewer) (r - reserve_quota)); try done.
    nia.
  - destruct (Z.gtb_spec (c * count) r); [done|].
    destruct (Z.gtb_spec (c * fewer) r); [nia | done].
Qed.

Lemma check_accepts_fewer_witness :
  check_quota_available quota_6000 today "videos.insert" 1 = true.
Proof.
  apply (check_accepts_fewer quota_6000 today "videos.insert" 3 1);
    [lia | reflexivity].
Defined.







(** X10.  An upload that fails for any reason other than a [quotaExceeded]
    error leaves the quota file untouched: a failed attempt consumes no
    budget. *)
Theorem failed_upload_costs_nothing (api : bool) (quota_data : QuotaData)
    (today : string) (attempt : UploadAttempt) :
  attempt ≠ RaisedQuotaExceeded →
  (upload_video api quota_data today attempt).1 = None →
  (upload_video api quota_data today attempt).2 = quota_data.
Proof.
  intros Hne. unfold upload_video.
  destruct api; [|done]. simpl.
  destruct (check_quota_available _ _ _ _); [|done]. simpl.
  destruct attempt as [[video_id|]| |]; simpl; try done.
  by destruct (str_truthy video_id).
Qed.

Lemma failed_upload_costs_nothing_witness :
  (upload_video true quota_6000 today RaisedOther).2 = quota_6000.
Proof.
  apply (failed_upload_costs_nothing true quota_6000 today RaisedOther);
    [discriminate | reflexivity].
Defined.

Lemma used_today_force (quota_data : QuotaData) (today : string) :
  used_today (force_quota_exceeded quota_data today) today = daily_quota_limit.
Proof.
  unfold used_today, force_quota_exceeded. by rewrite lookup_insert_eq.
Qed.

(** X11.  Once the [quotaExceeded] handler has run, the check refuses
    every number of uploads for the rest of the day, and [upload_video]
    returns [None] without sending a request or touching the file. *)
Theorem quota_exceeded_blocks_uploads (quota_data : QuotaData)
    (today : string) (count : nat) (api : bool) (attempt : UploadAttempt) :
  let blocked := force_quota_exceeded quota_data today in
  check_quota_available blocked today "videos.insert" (Z.of_nat count) = false ∧
  upload_video api blocked today attempt = (None, blocked).
Proof.
  cbv zeta. split.
  - rewrite check_insert, used_today_force. unfold daily_quota_limit.
    destruct (Z.gtb_spec (1600 * Z.of_nat count) (9500 - 10000)); [done|lia].
  - unfold upload_video. destruct api; [|done]. simpl.
    rewrite check_insert, used_today_force. by vm_compute.
Qed.




(** *** What a batch reports and what it spends *)






(** *** The operation breakdown and the existence check *)




(** X16.  With the daily limit used up, [check_video_exists] sends no
    request and answers [True] for every video: while the quota is
    exhausted a deleted video is reported as existing, and the quota file
    is left as it was. *)
Theorem exhausted_quota_assumes_video_exists (quota_data : QuotaData)
    (today : string) (request : ExistsRequest) :
  daily_quota_limit ≤ used_today quota_data today →
  check_video_exists true quota_data today request = (true, quota_data).
Proof.
  intros Hused. unfold check_video_exists, check_quota_available. simpl.
  change (quota_cost "videos.list") with 1.
  by destruct (Z.gtb_spec (1 * 1)
                 (daily_quota_limit - used_today quota_data today)); [|lia].
Qed.

Lemma exhausted_quota_assumes_video_exists_witness :
  check_video_exists true (force_quota_exceeded ∅ today) today (ItemsReturned 0)
  = (true, force_quota_exceeded ∅ today).
Proof.
  apply (exhausted_quota_assumes_video_exists (force_quota_exceeded ∅ today)
           today (ItemsReturned 0)).
  by vm_compute.
Defined.

(** *** The upload schedule *)

Lemma publish_day_indices_value : publish_day_indices = [0; 2; 4]%nat.
Proof. reflexivity. Qed.

Lemma schedule_times_sorted :
  StronglySorted (λ a b, String.ltb a b = true) schedule_times.
Proof. repeat constructor. Qed.

(** One day of the loop: the slots are taken from the configured times in
    their order, at most [missing] of them, and on the first day only
    those after [current_time]. *)
Lemma day_slots_spec (d : nat) (current_time : string) (times : list string) :
  ∀ missing, (1 ≤ missing)%nat →
  ∃ l, day_slots d current_time times missing = mkSlot d <$> l ∧
    l `sublist_of` times ∧ (length l ≤ missing)%nat ∧
    Forall (λ t, d = 0%nat → String.leb t current_time = false) l ∧
    (d ≠ 0%nat → l = take missing times).
Proof.
  induction times as [|t rest IH]; intros missing Hm; simpl.
  - exists []. split_and!; [done | done | simpl; lia | constructor |].
    intros _. by rewrite take_nil.
  - destruct ((d =? 0)%nat && String.leb t current_time) eqn:Hskip.
    + destruct (IH missing Hm) as (l & Hl & Hsub & Hlen & Hall & Htake).
      exists l. split_and!; [done | by apply sublist_cons | done | done |].
      intros Hd. apply andb_true_iff in Hskip as [Hd0%Nat.eqb_eq _]. done.
    + assert (Hlate : d = 0%nat → String.leb t current_time = false).
      { intros ->. by destruct (String.leb t current_time). }
      destruct missing as [|[|others]]; [lia| |].
      * exists [t]. split_and!.
        -- done.
        -- apply sublist_skip, sublist_nil_l.
        -- simpl. lia.
        -- by repeat constructor.
        -- intros _. simpl. by rewrite take_0.
      * destruct (IH (S others) ltac:(lia)) as (l & Hl & Hsub & Hlen & Hall & Htake).
        exists (t :: l). rewrite Hl. split_and!.
        -- done.
        -- by apply sublist_skip.
        -- simpl. lia.
        -- by constructor.
        -- intros Hd. simpl. by rewrite <- Htake.
Qed.

Lemma schedule_loop_step (fuel cd d : nat) (current_time : string)
    (missing : nat) :
  (1 ≤ missing)%nat →
  schedule_loop (S fuel) cd d current_time missing
  = let added := if bool_decide (cd ∈ publish_day_indices)
                 then day_slots d current_time schedule_times missing
                 else [] in
    (λ later, added ++ later)
    <$> schedule_loop fuel ((cd + 1) `mod` 7) (S d) "00:00"
          (missing - length added).
Proof.
  intros Hm. destruct missing as [|m]; [lia|]. simpl.
  by destruct (schedule_loop fuel _ _ _ _).
Qed.

Lemma from_day_app (weekday : nat) (current_time : string) (d : nat)
    (times : list string) (later : list Slot) :
  ((weekday + d) `mod` 7)%nat ∈ publish_day_indices →
  times `sublist_of` schedule_times →
  Forall (λ t, d = 0%nat → String.leb t current_time = false) times →
  from_day weekday current_time (S d) later →
  from_day weekday current_time d ((mkSlot d <$> times) ++ later).
Proof.
  intros Hday Hsub Hlate [Hall Hsorted]. split.
  - apply Forall_app. split.
    + apply Forall_fmap, Forall_forall. intros t Ht. simpl. split; [lia|].
      unfold slot_ok, slot_weekday. simpl. repeat split; [done | |].
      * by eapply elem_of_sublist.
      * eapply Forall_forall in Hlate; done.
    + eapply Forall_impl; [done|]. intros s [Hd Hok]. split; [lia | done].
  - apply StronglySorted_app_2; [| |done].
    + intros a b (t & -> & _)%list_elem_of_fmap Hb.
      eapply Forall_forall in Hall as [Hd _]; [|done].
      left. simpl. lia.
    + apply (StronglySorted_fmap _ (λ a b, String.ltb a b = true)).
      * intros x y Hxy. right. by split.
      * eapply sublist_StronglySorted; [done | apply schedule_times_sorted].
Qed.

Lemma from_day_weaken (weekday : nat) (current_time : string) (d : nat)
    (l : list Slot) :
  from_day weekday current_time (S d) l → from_day weekday current_time d l.
Proof.
  intros [Hall Hsorted]. split; [|done].
  eapply Forall_impl; [done|]. intros s [Hd Hok]. split; [lia | done].
Qed.

(** After the first day, a publishing day is at most two days away and
    gives at least one slot: three days of fuel per missing slot are
    enough. *)
Lemma schedule_loop_later (weekday : nat) (ct0 : string) (missing : nat) :
  ∀ fuel d current_time,
    (1 ≤ d)%nat → (3 * missing ≤ fuel)%nat →
    ∃ l, schedule_loop fuel ((weekday + d) `mod` 7) d current_time missing
         = Some l ∧
      length l = missing ∧ from_day weekday ct0 d l.
Proof.
  induction missing as [missing IH] using lt_wf_ind.
  intros fuel d current_time Hd Hfuel.
  destruct missing as [|m].
  { exists []. destruct fuel; simpl; repeat split; constructor. }
  assert (Hpublish : ∀ fuel d current_time,
    (1 ≤ d)%nat → (3 * S m - 2 ≤ S fuel)%nat →
    ((weekday + d) `mod` 7)%nat ∈ publish_day_indices →
    ∃ l, schedule_loop (S fuel) ((weekday + d) `mod` 7) d current_time (S m)
         = Some l ∧
      length l = S m ∧ from_day weekday ct0 d l).
  { clear fuel d current_time Hd Hfuel. intros fuel d current_time Hd Hfuel Hday.
    rewrite schedule_loop_step by lia. cbv zeta.
    rewrite bool_decide_true by done.
    destruct (day_slots_spec d current_time schedule_times (S m) ltac:(lia))
      as (l & -> & Hsub & Hlen & _ & Htake).
    rewrite (Htake ltac:(lia)) in *. rewrite length_fmap, length_take.
    change (length schedule_times) with 3%nat.
    replace (((weekday + d) `mod` 7 + 1) `mod` 7)%nat with ((weekday + S d) `mod` 7)%nat
      by (rewrite Nat.Div0.add_mod_idemp_l; f_equal; lia).
    destruct (IH (S m - S m `min` 3)%nat ltac:(lia) fuel (S d) "00:00"
                ltac:(lia) ltac:(lia)) as (later & -> & Hlater & Hfrom).
    eexists. split; [done|]. split.
    - rewrite length_app, length_fmap, length_take, Hlater.
      change (length schedule_times) with 3%nat. lia.
    - apply from_day_app; try done. apply Forall_forall. intros t _ ->. lia. }
  assert (Hempty : ∀ fuel d current_time,
    ((weekday + d) `mod` 7)%nat ∉ publish_day_indices →
    schedule_loop (S fuel) ((weekday + d) `mod` 7) d current_time (S m)
    = schedule_loop fuel ((weekday + S d) `mod` 7) (S d) "00:00" (S m)).
  { clear. intros fuel d current_time Hday.
    rewrite schedule_loop_step by lia. cbv zeta.
    rewrite bool_decide_false by done.
    replace (((weekday + d) `mod` 7 + 1) `mod` 7)%nat with ((weekday + S d) `mod` 7)%nat
      by (rewrite Nat.Div0.add_mod_idemp_l; f_equal; lia).
    change (S m - length (@nil Slot))%nat with (S m).
    by destruct (schedule_loop fuel _ _ _ _). }
  assert (Hnext : ∀ d, ((weekday + S d) `mod` 7)%nat = ((((weekday + d) `mod` 7) + 1) `mod` 7)%nat).
  { intros d'. rewrite Nat.Div0.add_mod_idemp_l. f_equal. lia. }
  destruct fuel as [|[|[|fuel]]]; [lia..|].
  pose proof (Nat.mod_upper_bound (weekday + d) 7 ltac:(lia)) as Hlt.
  destruct (decide (((weekday + d) `mod` 7)%nat ∈ publish_day_indices)) as [Hin|Hout].
  { apply Hpublish; [done | lia | done]. }
  rewrite Hempty by done.
  destruct (decide (((weekday + S d) `mod` 7)%nat ∈ publish_day_indices)) as [Hin1|Hout1].
  { destruct (Hpublish (S fuel) (S d) "00:00" ltac:(lia) ltac:(lia) Hin1)
      as (l & Hl & Hlen & Hfrom).
    exists l. split_and!; [done | done | by apply from_day_weaken]. }
  rewrite Hempty by done.
  assert (Hin2 : ((weekday + S (S d)) `mod` 7)%nat ∈ publish_day_indices).
  { rewrite Hnext, Hnext in *. rewrite publish_day_indices_value in *.
    set (c := ((weekday + d) `mod` 7)%nat) in *.
    do 7 (destruct c as [|c]; [set_solver|]). lia. }
  destruct (Hpublish fuel (S (S d)) "00:00" ltac:(lia) ltac:(lia) Hin2)
    as (l & Hl & Hlen & Hfrom).
  exists l. split_and!; [done | done | by do 2 apply from_day_weaken].
Qed.

Lemma schedule_loop_first (weekday : nat) (current_time : string)
    (missing fuel : nat) :
  (weekday < 7)%nat → (3 * missing + 1 ≤ fuel)%nat →
  ∃ l, schedule_loop fuel weekday 0 current_time missing = Some l ∧
    length l = missing ∧ from_day weekday current_time 0 l.
Proof.
  intros Hw Hfuel. destruct missing as [|m].
  { exists []. destruct fuel; simpl; repeat split; constructor. }
  destruct fuel as [|fuel]; [lia|].
  rewrite schedule_loop_step by lia. cbv zeta.
  destruct (decide (weekday ∈ publish_day_indices)) as [Hin|Hout].
  - rewrite bool_decide_true by done.
    destruct (day_slots_spec 0 current_time schedule_times (S m) ltac:(lia))
      as (l & -> & Hsub & Hlen & Hlate & _).
    rewrite length_fmap.
    destruct (schedule_loop_later weekday current_time (S m - length l) fuel 1
                "00:00" ltac:(lia) ltac:(lia)) as (later & -> & Hlater & Hfrom).
    eexists. split; [done|]. split.
    + rewrite length_app, length_fmap, Hlater. lia.
    + apply from_day_app; try done.
      by rewrite Nat.add_0_r, Nat.mod_small.
  - rewrite bool_decide_false by done.
    change (S m - length (@nil Slot))%nat with (S m).
    destruct (schedule_loop_later weekday current_time (S m) fuel 1
                "00:00" ltac:(lia) ltac:(lia)) as (later & -> & Hlater & Hfrom).
    eexists. split; [done|]. split; [done|]. by apply from_day_weaken.
Qed.

(** Looking at more days than needed does not change the schedule. *)
Lemma schedule_loop_more_fuel (fuel : nat) :
  ∀ fuel' cd d current_time missing l,
    (fuel ≤ fuel')%nat →
    schedule_loop fuel cd d current_time missing = Some l →
    schedule_loop fuel' cd d current_time missing = Some l.
Proof.
  induction fuel as [|fuel IH]; intros fuel' cd d current_time missing l Hle.
  - destruct missing; [by destruct fuel'|done].
  - destruct fuel' as [|fuel']; [lia|].
    destruct missing as [|m]; [done|]. simpl.
    destruct (schedule_loop fuel _ _ _ _) as [later|] eqn:Hlater; [|done].
    by rewrite (IH fuel' _ _ _ _ later ltac:(lia) Hlater).
Qed.

(** X17.  The schedule loop ends: looking at [3 * num_videos + 1] days is
    always enough, and looking at more gives the same schedule.
    [get_upload_schedule] returns exactly [num_videos] slots (none for a
    count that is zero or negative).  Every slot falls on a Monday,
    Wednesday or Friday, at 08:00, 12:00 or 18:00, and a slot on the
    current day is later than the current time. *)
Theorem schedule_is_complete_and_valid (weekday : nat)
    (current_time : string) (num_videos : Z) :
  (weekday < 7)%nat →
  ∃ schedule,
    (∀ fuel, (3 * Z.to_nat num_videos + 1 ≤ fuel)%nat →
       get_upload_schedule fuel weekday current_time num_videos
       = Some schedule) ∧
    length schedule = Z.to_nat num_videos ∧
    Forall (slot_ok weekday current_time) schedule.
Proof.
  intros Hw. unfold get_upload_schedule.
  destruct (schedule_loop_first weekday current_time (Z.to_nat num_videos)
              (3 * Z.to_nat num_videos + 1) Hw ltac:(lia))
    as (l & Hl & Hlen & [Hall _]).
  exists l. split_and!; [|done|].
  - intros fuel Hfuel. by apply (schedule_loop_more_fuel _ _ _ _ _ _ _ Hfuel).
  - eapply Forall_impl; [done|]. by intros s [_ Hok].
Qed.

Lemma schedule_is_complete_and_valid_witness :
  ∃ schedule,
    (∀ fuel, (3 * Z.to_nat 5 + 1 ≤ fuel)%nat →
       get_upload_schedule fuel 2 "12:30" 5 = Some schedule) ∧
    length schedule = Z.to_nat 5 ∧
    Forall (slot_ok 2 "12:30") schedule.
Proof.
  apply (schedule_is_complete_and_valid 2 "12:30" 5). lia.
Defined.

(** X18.  The slots of a schedule are in strictly increasing order of
    time: by day, and within a day by time of day.  No slot is given
    twice. *)
Theorem schedule_is_chronological (fuel weekday : nat)
    (current_time : string) (num_videos : Z) :
  (weekday < 7)%nat →
  (3 * Z.to_nat num_videos + 1 ≤ fuel)%nat →
  ∃ schedule,
    get_upload_schedule fuel weekday current_time num_videos = Some schedule ∧
    StronglySorted slot_before schedule.
Proof.
  intros Hw Hfuel. unfold get_upload_schedule.
  destruct (schedule_loop_first weekday current_time (Z.to_nat num_videos)
              fuel Hw Hfuel) as (l & Hl & _ & [_ Hsorted]).
  by exists l.
Qed.

Lemma schedule_is_chronological_witness :
  ∃ schedule,
    get_upload_schedule 16 2 "12:30" 5 = Some schedule ∧
    StronglySorted slot_before schedule.
Proof.
  apply (schedule_is_chronological 16 2 "12:30" 5); simpl; lia.
Defined.

End YouTubeUploaderMore.

(** ** Scoring, threshold and selection *)

Module ContentAnalyzerFacts.
Import ContentAnalyzer Samples.

(** *** The stable sort *)

Lemma insert_before_Permutation {A : Type} (before : A → A → bool) (x : A)
    (l : list A) :
  insert_before before x l ≡ₚ x :: l.
Proof.
  induction l as [|y l IH]; simpl; [done|].
  destruct (before x y); [done|]. rewrite IH. apply Permutation_swap.
Qed.

Lemma py_sorted_Permutation {A : Type} (before : A → A → bool) (l : list A) :
  py_sorted before l ≡ₚ l.
Proof.
  induction l as [|x l IH]; simpl; [done|].
  rewrite insert_before_Permutation. by rewrite IH.
Qed.

Lemma py_sorted_length {A : Type} (before : A → A → bool) (l : list A) :
  length (py_sorted before l) = length l.
Proof. by rewrite py_sorted_Permutation. Qed.

(** Equal keys keep their input order. *)
Example py_sorted_stable :
  py_sorted (λ a b : Z * string, a.1 <=? b.1)
    [(2, "x"); (1, "first"); (2, "y"); (1, "second")]
  = [(1, "first"); (1, "second"); (2, "x"); (2, "y")].
Proof. reflexivity. Qed.

(** *** The logarithm *)

Lemma ln_10_pos : (0 < ln 10)%R.
Proof. rewrite <- ln_1. apply ln_increasing; lra. Qed.

Lemma log10_1 : log10 1 = 0%R.
Proof. unfold log10. rewrite ln_1. lra. Qed.

Lemma log10_le (x y : R) : (0 < x)%R → (x <= y)%R → (log10 x <= log10 y)%R.
Proof.
  intros Hx Hxy. unfold log10.
  apply Rmult_le_compat_r.
  - left. apply Rinv_0_lt_compat, ln_10_pos.
  - destruct Hxy as [Hlt| ->]; [left; by apply ln_increasing | lra].
Qed.

Lemma log10_nonneg (x : R) : (1 <= x)%R → (0 <= log10 x)%R.
Proof. intros Hx. rewrite <- log10_1. apply log10_le; lra. Qed.

(** *** Scoring *)

Lemma rate_bound_below_overflow : rate_bound < float_overflow.
Proof. by vm_compute. Qed.

Lemma float_overflow_pos : 0 < float_overflow.
Proof. by vm_compute. Qed.

Lemma rate_bound_pos : 0 < rate_bound.
Proof. by vm_compute. Qed.

(** A quotient of non-negative integers below [float_overflow] is a
    float. *)
Lemma true_div_within (a b : Z) :
  0 ≤ a → 0 ≤ b → a < float_overflow * b → true_div_overflows a b = false.
Proof.
  intros Ha Hb Hlt. unfold true_div_overflows.
  rewrite (Z.abs_eq a), (Z.abs_eq b) by done. by apply Z.leb_gt.
Qed.

Lemma rate_within_no_overflow (video : Video) :
  0 < playCount video →
  0 ≤ engagement_total video →
  rate_within_float_range video →
  true_div_overflows (engagement_total video) (playCount video) = false.
Proof.
  unfold rate_within_float_range. intros Hv Ht Hrate.
  rewrite Z.max_l in Hrate by lia.
  apply true_div_within; [done | lia |].
  pose proof rate_bound_below_overflow as Hlt.
  apply (Z.mul_lt_mono_pos_r (playCount video)) in Hlt; [|done].
  lia.
Qed.

(** The score of a video with a non-zero counter and non-negative views:
    0 without views, 0.5 when the division overflows, and the weighted
    formula otherwise. *)
Lemma score_with_metrics (rnd : R) (video : Video) :
  0 ≤ playCount video →
  ¬ no_metrics video →
  calculate_engagement_score rnd video
  = if playCount video =? 0 then 0%R
    else if true_div_overflows (engagement_total video) (playCount video)
    then 0.5%R
    else (0.4 * log10 (IZR (playCount video + 1))
          + 0.6 * (IZR (engagement_total video) / IZR (playCount video)) * 10)%R.
Proof.
  intros Hviews Hsome. unfold calculate_engagement_score, engagement_total.
  destruct (playCount video =? 0) eqn:Hv; cbn [andb].
  - apply Z.eqb_eq in Hv.
    destruct (diggCount video =? 0) eqn:Hl; cbn [andb]; [|done].
    destruct (commentCount video =? 0) eqn:Hc; cbn [andb]; [|done].
    destruct (shareCount video =? 0) eqn:Hs; cbn [andb]; [|done].
    exfalso. apply Hsome. unfold no_metrics. lia.
  - destruct (true_div_overflows _ _); [done|].
    destruct (Z.leb_spec (playCount video + 1) 0); [lia | done].
Qed.

Lemma positive_not_no_metrics (video : Video) :
  some_counter_positive video → ¬ no_metrics video.
Proof. unfold some_counter_positive, no_metrics. lia. Qed.

Lemma engagement_total_nonneg (video : Video) :
  counters_nonneg video → 0 ≤ engagement_total video.
Proof. unfold counters_nonneg, engagement_total. lia. Qed.

(** The score within the float range. *)
Lemma score_within_range (rnd : R) (video : Video) :
  counters_nonneg video →
  ¬ no_metrics video →
  rate_within_float_range video →
  calculate_engagement_score rnd video
  = if playCount video =? 0 then 0%R
    else (0.4 * log10 (IZR (playCount video + 1))
          + 0.6 * (IZR (engagement_total video) / IZR (playCount video)) * 10)%R.
Proof.
  intros Hnn Hsome Hrate.
  pose proof (engagement_total_nonneg _ Hnn) as Ht.
  destruct Hnn as (Hv & _).
  rewrite score_with_metrics by done.
  destruct (Z.eqb_spec (playCount video) 0); [done|].
  by rewrite rate_within_no_overflow by (done || lia).
Qed.




(** Beyond the float range the division raises and the handler answers:
    one view and [10^309] likes score 0.5, whatever the formula gives. *)
Example overflowing_rate_score (rnd : R) :
  calculate_engagement_score rnd (liked_once_viewed (10 ^ 309)) = 0.5%R.
Proof.
  rewrite score_with_metrics.
  - change (playCount (liked_once_viewed (10 ^ 309)) =? 0) with false.
    assert (true_div_overflows
              (engagement_total (liked_once_viewed (10 ^ 309)))
              (playCount (liked_once_viewed (10 ^ 309))) = true) as ->
      by (by vm_compute).
    done.
  - simpl. lia.
  - unfold no_metrics. simpl. lia.
Qed.

Lemma score_no_metrics (rnd : R) (video : Video) :
  no_metrics video →
  calculate_engagement_score rnd video = fallback_score rnd (create_time video).
Proof.
  intros (Hv & Hl & Hc & Hs). unfold calculate_engagement_score.
  by rewrite Hv, Hl, Hc, Hs.
Qed.

Lemma clamp_range (x : R) : (0 <= Rmin 5 (Rmax 0 x) <= 5)%R.
Proof.
  split.
  - apply Rmin_glb; [lra | apply Rmax_l].
  - apply Rmin_l.
Qed.

Lemma fallback_score_range (rnd : R) (create_time : option Z) :
  (0 <= rnd <= 5)%R → (0 <= fallback_score rnd create_time <= 5)%R.
Proof.
  intros Hrnd. destruct create_time as [t|]; simpl; [|done].
  destruct (true_div_overflows _ _); [done | apply clamp_range].
Qed.

Lemma fallback_score_nonneg (rnd : R) (create_time : option Z) :
  (0 <= rnd)%R → (0 <= fallback_score rnd create_time)%R.
Proof.
  intros Hrnd. destruct create_time as [t|]; simpl; [|done].
  destruct (true_div_overflows _ _); [done | apply clamp_range].
Qed.

(** C7, as amended.  For a video whose four counters are zero, the score
    is [fallback_score], a function of ['createTime'] and of the random
    draw alone, and lies in [0, 5].  It is 0 when the key is missing; the
    creation time scaled by 10^9 and clamped to [0, 5] when the value
    converts to an integer within the float range; and the value drawn by
    [random.uniform(0.1, 1.0)] when the value does not convert, or is too
    large for the division. *)
Theorem degenerate_score (rnd : R) (video : Video) :
  no_metrics video →
  (0.1 <= rnd <= 1.0)%R →
  let score := calculate_engagement_score rnd video in
  score = fallback_score rnd (create_time video) ∧
  (0 <= score <= 5)%R ∧
  match createTime video with
  | ct_absent => score = 0%R
  | ct_int t =>
      if true_div_overflows t 1000000000 then score = rnd
      else score = Rmin 5 (Rmax 0 (IZR t / 1000000000))
  | ct_invalid => score = rnd
  end.
Proof.
  intros Hzero Hrnd score. subst score. rewrite score_no_metrics by done.
  split; [done|]. split; [apply fallback_score_range; lra|].
  unfold create_time, fallback_score.
  destruct (createTime video) as [|t|].
  - assert (true_div_overflows 0 1000000000 = false) as -> by (by vm_compute).
    rewrite Rmax_left, Rmin_right; lra.
  - by destruct (true_div_overflows t 1000000000).
  - done.
Qed.

Lemma degenerate_score_witness :
  let score := calculate_engagement_score 0.5 fresh_video in
  score = fallback_score 0.5 (create_time fresh_video) ∧
  (0 <= score <= 5)%R ∧
  match createTime fresh_video with
  | ct_absent => score = 0%R
  | ct_int t =>
      if true_div_overflows t 1000000000 then score = 0.5%R
      else score = Rmin 5 (Rmax 0 (IZR t / 1000000000))
  | ct_invalid => score = 0.5%R
  end.
Proof.
  apply (degenerate_score 0.5 fresh_video).
  - unfold no_metrics. simpl. lia.
  - lra.
Defined.

(** C7, as stated, fails on a video without metrics and without a
    ['createTime'] key: [video.get('createTime', 0)] is 0, the score is 0,
    and no random value between 0.1 and 1.0 is drawn. *)
Lemma undated_video_scores_zero :
  ¬ degenerate_as_specified 0.5 undated_video.
Proof.
  unfold degenerate_as_specified. intros H.
  assert (Hcode : calculate_engagement_score 0.5 undated_video = 0%R).
  { rewrite score_no_metrics by (unfold no_metrics; simpl; lia).
    change (create_time undated_video) with (Some 0). unfold fallback_score.
    assert (true_div_overflows 0 1000000000 = false) as -> by (by vm_compute).
    rewrite Rmax_left, Rmin_right; lra. }
  change (createTime undated_video) with ct_absent in H.
  rewrite Hcode in H.
  assert (0.1 <= 0 <= 1.0)%R by (apply H; [unfold no_metrics; simpl; lia | lra]).
  lra.
Qed.

(** The fallback is not the normal-regime formula, which is 0 on a video
    without metrics: a video created at second 1700000000 scores 1.7. *)
Example fresh_video_score :
  calculate_engagement_score 0.5 fresh_video = 1.7%R ∧
  spec_normal_score fresh_video = 0%R.
Proof.
  split.
  - rewrite score_no_metrics by (unfold no_metrics; simpl; lia).
    change (create_time fresh_video) with (Some 1700000000).
    unfold fallback_score.
    assert (true_div_overflows 1700000000 1000000000 = false) as ->
      by (by vm_compute).
    rewrite Rmax_right by lra. rewrite Rmin_right by lra. lra.
  - unfold spec_normal_score, spec_engagement_rate, engagement_total. simpl.
    change (IZR (0 + 1)) with 1%R. change (IZR (0 + 0 + 0)) with 0%R.
    rewrite log10_1. lra.
Qed.

(** A creation time too large for the division draws the random value. *)
Example far_future_video_score (rnd : R) :
  calculate_engagement_score rnd far_future_video = rnd.
Proof.
  rewrite score_no_metrics by (unfold no_metrics; simpl; lia).
  change (create_time far_future_video) with (Some (10 ^ 400)).
  unfold fallback_score.
  by assert (true_div_overflows (10 ^ 400) 1000000000 = true) as ->
    by (by vm_compute).
Qed.

(** The equality of rates, with the divisions. *)
Lemma same_engagement_rate_div (a b : Video) :
  same_engagement_rate a b ↔ spec_engagement_rate a = spec_engagement_rate b.
Proof.
  unfold same_engagement_rate, spec_engagement_rate.
  set (sa := engagement_total a). set (sb := engagement_total b).
  set (ma := playCount a `max` 1). set (mb := playCount b `max` 1).
  assert (Ha : (0 < IZR ma)%R) by (apply IZR_lt; lia).
  assert (Hb : (0 < IZR mb)%R) by (apply IZR_lt; lia).
  split.
  - intros H. apply (f_equal IZR) in H. rewrite !mult_IZR in H.
    apply (Rmult_eq_reg_r (IZR ma * IZR mb)); [|nra].
    field_simplify; lra.
  - intros H. apply eq_IZR. rewrite !mult_IZR.
    apply (f_equal (λ x, x * (IZR ma * IZR mb))%R) in H.
    field_simplify in H; lra.
Qed.

Lemma formula_nonneg (views total : Z) :
  0 < views → 0 ≤ total →
  (0 <= 0.4 * log10 (IZR (views + 1)) + 0.6 * (IZR total / IZR views) * 10)%R.
Proof.
  intros Hv Ht.
  assert (0 <= log10 (IZR (views + 1)))%R
    by (apply log10_nonneg, IZR_le; lia).
  assert (0 < IZR views)%R by (apply IZR_lt; lia).
  assert (0 <= IZR total)%R by (apply IZR_le; lia).
  assert (0 <= IZR total / IZR views)%R
    by (apply Rmult_le_pos; [done | left; by apply Rinv_0_lt_compat]).
  lra.
Qed.

(** A quotient within the float range stays within it when the views grow
    at the same rate, and when the engagement shrinks at the same views. *)
Lemma rate_within_smaller (a b : Video) :
  0 ≤ playCount a →
  rate_within_float_range b →
  (playCount a ≤ playCount b ∧ same_engagement_rate a b) ∨
  (playCount a = playCount b ∧ engagement_total a ≤ engagement_total b) →
  rate_within_float_range a.
Proof.
  unfold rate_within_float_range, same_engagement_rate.
  intros Hva Hb [[Hle Hrate]|[Heq Hle]]; [|rewrite Heq; lia].
  set (ma := playCount a `max` 1) in *. set (mb := playCount b `max` 1) in *.
  assert (0 < ma) by lia. assert (0 < mb) by lia.
  apply (Z.mul_le_mono_pos_r _ _ mb); [done|]. rewrite Hrate.
  rewrite <- Z.mul_assoc, (Z.mul_comm ma mb), Z.mul_assoc.
  apply Z.mul_le_mono_nonneg_r; lia.
Qed.

(** C8, as amended.  Among videos with non-negative counters of which at
    least one is positive, and with a quotient of engagement by views
    within the float range, the score does not decrease when the views
    grow at a fixed engagement rate, nor when the sum of likes, comments
    and shares grows at fixed views. *)
Theorem score_monotone (rnd_a rnd_b : R) (a b : Video) :
  counters_nonneg a → counters_nonneg b →
  some_counter_positive a → some_counter_positive b →
  rate_within_float_range b →
  (playCount a ≤ playCount b ∧ same_engagement_rate a b) ∨
  (playCount a = playCount b ∧ engagement_total a ≤ engagement_total b) →
  (calculate_engagement_score rnd_a a <= calculate_engagement_score rnd_b b)%R.
Proof.
  intros Hnna Hnnb Hpa Hpb Hrb Hcase.
  assert (Hra : rate_within_float_range a).
  { apply (rate_within_smaller a b); [by destruct Hnna | done | done]. }
  rewrite !score_within_range by auto using positive_not_no_metrics.
  pose proof (engagement_total_nonneg _ Hnna) as Hta.
  pose proof (engagement_total_nonneg _ Hnnb) as Htb.
  destruct Hnna as (Hva & _). destruct Hnnb as (Hvb & _).
  destruct Hcase as [[Hle Hrate]|[Heq Hle]].
  - destruct (Z.eqb_spec (playCount a) 0) as [Ha0|Ha0];
      destruct (Z.eqb_spec (playCount b) 0) as [Hb0|Hb0].
    + lra.
    + apply formula_nonneg; [lia | done].
    + lia.
    + apply same_engagement_rate_div in Hrate.
      unfold spec_engagement_rate in Hrate.
      rewrite !Z.max_l in Hrate by lia. rewrite Hrate.
      assert (log10 (IZR (playCount a + 1)) <= log10 (IZR (playCount b + 1)))%R.
      { apply log10_le; [apply IZR_lt; lia | apply IZR_le; lia]. }
      lra.
  - rewrite Heq.
    destruct (Z.eqb_spec (playCount b) 0) as [Hb0|Hb0]; [lra|].
    assert (0 < IZR (playCount b))%R by (apply IZR_lt; lia).
    assert (IZR (engagement_total a) / IZR (playCount b)
            <= IZR (engagement_total b) / IZR (playCount b))%R.
    { apply Rmult_le_compat_r; [left; by apply Rinv_0_lt_compat|].
      by apply IZR_le. }
    lra.
Qed.

Lemma score_monotone_witness :
  (calculate_engagement_score 0.5 popular
   <= calculate_engagement_score 0.5 more_popular)%R ∧
  (calculate_engagement_score 0.5 popular
   <= calculate_engagement_score 0.5 better_liked)%R.
Proof.
  split.
  - apply (score_monotone 0.5 0.5 popular more_popular).
    + unfold counters_nonneg. simpl. lia.
    + unfold counters_nonneg. simpl. lia.
    + unfold some_counter_positive. simpl. lia.
    + unfold some_counter_positive. simpl. lia.
    + by vm_compute.
    + left. split; [simpl; lia | reflexivity].
  - apply (score_monotone 0.5 0.5 popular better_liked).
    + unfold counters_nonneg. simpl. lia.
    + unfold counters_nonneg. simpl. lia.
    + unfold some_counter_positive. simpl. lia.
    + unfold some_counter_positive. simpl. lia.
    + by vm_compute.
    + right. split; [reflexivity | unfold engagement_total; simpl; lia].
Defined.

(** C8, as stated, fails beyond the float range: at one view, two likes
    score above 12 and [10^309] likes, for which the division raises,
    score the 0.5 of the handler. *)
Lemma overflow_lowers_score :
  ¬ score_monotone_as_specified 0.5 0.5
      (liked_once_viewed 2) (liked_once_viewed (10 ^ 309)).
Proof.
  unfold score_monotone_as_specified. intros H.
  assert (Hb : calculate_engagement_score 0.5 (liked_once_viewed (10 ^ 309))
               = 0.5%R) by apply overflowing_rate_score.
  assert (Ha : (12 <= calculate_engagement_score 0.5 (liked_once_viewed 2))%R).
  { rewrite score_with_metrics;
      [|simpl; lia | unfold no_metrics; simpl; lia].
    change (playCount (liked_once_viewed 2) =? 0) with false.
    assert (true_div_overflows (engagement_total (liked_once_viewed 2))
              (playCount (liked_once_viewed 2)) = false) as ->
      by (by vm_compute).
    change (engagement_total (liked_once_viewed 2)) with 2.
    change (playCount (liked_once_viewed 2)) with 1.
    assert (0 <= log10 (IZR (1 + 1)))%R
      by (apply log10_nonneg; change (IZR (1 + 1)) with 2%R; lra).
    lra. }
  assert (Z.lt 0 (10 ^ 309)) by (by vm_compute).
  assert (calculate_engagement_score 0.5 (liked_once_viewed 2)
          <= calculate_engagement_score 0.5 (liked_once_viewed (10 ^ 309)))%R.
  { apply H.
    - unfold counters_nonneg. simpl. lia.
    - unfold counters_nonneg. simpl. lia.
    - unfold some_counter_positive. simpl. lia.
    - unfold some_counter_positive. simpl. lia.
    - right. split; [reflexivity | unfold engagement_total; simpl; lia]. }
  lra.
Qed.

(** Without the restriction to videos that have metrics the score is not
    monotone in the engagement: a like on a video without views takes the
    score from the recency fallback down to 0. *)
Example like_lowers_fresh_score :
  (calculate_engagement_score 0.5 liked_unplayed
   < calculate_engagement_score 0.5 fresh_video)%R.
Proof.
  destruct fresh_video_score as [-> _].
  unfold calculate_engagement_score. simpl. lra.
Qed.

(** *** The dynamic view threshold *)

(** The median and the 75th-percentile index are within the list. *)
Lemma threshold_indices_in_range (n : nat) :
  (0 < n)%nat →
  (n / 2 < n)%nat ∧ (percentile_75_index n < n)%nat.
Proof.
  intros Hn. split.
  - apply Nat.div_lt; lia.
  - unfold percentile_75_index, int_of_Q. simpl.
    change (Z.pos (1 * 4)) with 4.
    assert (Z.quot (Z.of_nat n * 3) 4 < Z.of_nat n).
    { apply Z.quot_lt_upper_bound; lia. }
    assert (0 ≤ Z.quot (Z.of_nat n * 3) 4) by (apply Z.quot_pos; lia).
    lia.
Qed.

Example scenario_floor :
  channel_size_of scenario_channel = Some medium ∧
  calculate_dynamic_view_threshold scenario_channel = 8000.
Proof. vm_compute. done. Qed.

(** The product is rounded as a float before it is truncated: 70% of 5130
    views are 3590, as [0.7] is a float just below seven tenths. *)
Example threshold_rounds_product :
  calculate_dynamic_view_threshold [with_views 5130] = 3590.
Proof. by vm_compute. Qed.

(** A play count beyond the float range makes the average raise, and the
    handler returns the configured [min_views]. *)
Example overflowing_average_floor :
  calculate_dynamic_view_threshold [with_views (10 ^ 309)] = 1000.
Proof. by vm_compute. Qed.

(** So does a 75th percentile beyond the float range, in the conversion
    of [percentile_75 * 0.7], although the average is a float. *)
Example overflowing_percentile_floor :
  channel_size_of (with_views <$> [1; 1; 1; 19 * 10 ^ 307]) = Some large ∧
  calculate_dynamic_view_threshold (with_views <$> [1; 1; 1; 19 * 10 ^ 307])
  = 1000.
Proof. by vm_compute. Qed.

Lemma sum_views_bounds (bound : Z) (view_counts : list Z) :
  Forall (λ views, 0 < views < bound) view_counts →
  view_counts ≠ [] →
  0 < sum_views view_counts < bound * Z.of_nat (length view_counts).
Proof.
  induction 1 as [|views rest Hviews Hrest IH]; intros Hne; [done|].
  unfold sum_views in *. cbn [foldr length]. rewrite Nat2Z.inj_succ.
  destruct rest as [|views' rest']; [simpl; lia|].
  specialize (IH ltac:(done)). lia.
Qed.

Lemma average_within (view_counts : list Z) :
  Forall (λ views, 0 < views < float_overflow) view_counts →
  view_counts ≠ [] →
  is_Some (average view_counts).
Proof.
  intros Hall Hne. unfold average, true_div.
  destruct (sum_views_bounds _ _ Hall Hne).
  rewrite true_div_within by lia. eauto.
Qed.

Lemma at_index_within (view_counts : list Z) (i : nat) :
  Forall (λ views, 0 < views < float_overflow) view_counts →
  0 ≤ at_index view_counts i < float_overflow.
Proof.
  intros Hall. unfold at_index.
  destruct (view_counts !! i) as [views|] eqn:Hi; simpl.
  - eapply Forall_lookup_1 in Hall; [|done]. simpl in Hall. lia.
  - pose proof float_overflow_pos. lia.
Qed.

Lemma float_of_int_within (n : Z) :
  0 ≤ n < float_overflow → is_Some (float_of_int n).
Proof.
  intros Hn. unfold float_of_int. rewrite Z.abs_eq by lia.
  destruct (Z.leb_spec float_overflow n); [lia | eauto].
Qed.

Lemma dynamic_threshold_within (channel_size : ChannelSize) (avg_views : Q)
    (view_counts : list Z) :
  Forall (λ views, 0 < views < float_overflow) view_counts →
  is_Some (dynamic_threshold channel_size avg_views view_counts).
Proof.
  intros Hall. unfold dynamic_threshold. destruct channel_size; [eauto| |].
  - destruct (float_of_int_within _ (at_index_within view_counts
                (length view_counts / 2) Hall)) as [x ->]. simpl. eauto.
  - destruct (float_of_int_within _ (at_index_within view_counts
                (percentile_75_index (length view_counts)) Hall)) as [x ->].
    simpl. eauto.
Qed.

(** What the [try] block returns is clamped by the bounds of a class. *)
Lemma threshold_of_counts_clamped (view_counts : list Z) (threshold : Z) :
  threshold_of_counts view_counts = Some threshold →
  ∃ avg_views,
    average view_counts = Some avg_views ∧
    min_bound (classify avg_views) ≤ threshold ≤ max_bound.
Proof.
  unfold threshold_of_counts.
  destruct (average view_counts) as [avg_views|]; [|done]. simpl.
  destruct (dynamic_threshold _ _ _) as [t|]; [|done]. simpl.
  intros [= <-]. exists avg_views. split; [done|].
  unfold max_bound. destruct (classify avg_views); simpl; lia.
Qed.

Lemma positive_view_counts_within (videos : list Video) :
  views_within_float_range videos →
  Forall (λ views, 0 < views < float_overflow) (positive_view_counts videos).
Proof.
  unfold views_within_float_range, positive_view_counts. intros Hall.
  apply Forall_forall. intros views [Hpos Hin]%list_elem_of_filter.
  apply list_elem_of_fmap in Hin as (video & -> & Hvideo).
  eapply Forall_forall in Hall; [|done]. simpl in Hall. lia.
Qed.

(** C5, as amended.  For every list of videos with at least one positive
    view count, and with every play count within the float range, the code
    computes a size class, and the threshold lies between the minimum
    bound of that class (3000, 8000 or 15000) and 500000. *)
Theorem admission_floor_bounded (videos : list Video) :
  positive_view_counts videos ≠ [] →
  views_within_float_range videos →
  ∃ channel_size,
    channel_size_of videos = Some channel_size ∧
    min_bound channel_size ≤ calculate_dynamic_view_threshold videos ∧
    calculate_dynamic_view_threshold videos ≤ 500000.
Proof.
  intros Hpos Hrange%positive_view_counts_within.
  unfold channel_size_of, calculate_dynamic_view_threshold.
  destruct videos as [|video videos]; [done|].
  destruct (positive_view_counts (video :: videos)) as [|views view_counts];
    [done|].
  set (sorted := py_sorted Z.leb (views :: view_counts)).
  assert (Hsorted : Forall (λ views, 0 < views < float_overflow) sorted)
    by (unfold sorted; by rewrite py_sorted_Permutation).
  assert (Hne : sorted ≠ []).
  { intros Hnil. apply (f_equal length) in Hnil.
    unfold sorted in Hnil. by rewrite py_sorted_length in Hnil. }
  destruct (average_within _ Hsorted Hne) as [avg_views Havg].
  destruct (dynamic_threshold_within (classify avg_views) avg_views _ Hsorted)
    as [threshold Hthreshold].
  exists (classify avg_views). unfold threshold_of_counts.
  rewrite Havg. simpl. rewrite Hthreshold. simpl.
  split; [done|]. unfold max_bound.
  destruct (classify avg_views); simpl; lia.
Qed.

Lemma admission_floor_bounded_witness :
  ∃ channel_size,
    channel_size_of scenario_channel = Some channel_size ∧
    min_bound channel_size ≤ calculate_dynamic_view_threshold scenario_channel ∧
    calculate_dynamic_view_threshold scenario_channel ≤ 500000.
Proof.
  apply (admission_floor_bounded scenario_channel).
  - vm_compute. discriminate.
  - unfold views_within_float_range, scenario_channel.
    repeat constructor; by vm_compute.
Defined.

(** C5, as stated for every non-empty list, fails on a list whose counts
    are all zero: the code returns the configured [min_views], 1000, which
    is below the minimum bound of every size class. *)
Lemma zero_views_floor_below_bounds :
  ¬ floor_bounded_as_specified [with_views 0].
Proof.
  unfold floor_bounded_as_specified. intros H.
  destruct (H ltac:(discriminate)) as (channel_size & Hlow & _).
  change (calculate_dynamic_view_threshold [with_views 0]) with 1000 in Hlow.
  destruct channel_size; simpl in Hlow; lia.
Qed.

(** *** Selection *)

Lemma policy_loop_cons (rnd : nat → R) (threshold : Z) (i : nat)
    (video : Video) (rest : list Video) :
  policy_loop rnd threshold i (video :: rest)
  = let kept := policy_loop rnd threshold (S i) rest in
    if float_lt (duration video) (finite min_duration)
       || float_lt (finite max_duration) (duration video)
    then kept
    else if playCount video <? threshold then kept
    else if Rlt_dec (calculate_engagement_score (rnd i) video) min_engagement_rate
    then kept
    else if existsb (λ tag, contains (lower tag) (lower (desc video)))
              exclude_hashtags
    then kept
    else video :: kept.
Proof. reflexivity. Qed.

(** The two comparisons of the policy filter let a duration through when
    it is a number within the window, and when it is NaN. *)
Lemma duration_test_passed (video : Video) :
  float_lt (duration video) (finite min_duration)
  || float_lt (finite max_duration) (duration video) = false ↔
  in_duration_window video ∨ duration video = nan.
Proof.
  unfold in_duration_window.
  destruct (duration video) as [seconds|negative|]; cbn [float_lt].
  - rewrite orb_false_iff, !negb_false_iff, !Qle_bool_iff.
    split; [auto | by intros [?|?]].
  - destruct negative; (split; [done | by intros [?|?]]).
  - split; [auto | done].
Qed.

(** The comparison of the first fallback lets a duration through only when
    it is a number within the window. *)
Lemma shorts_duration_window (video : Video) :
  shorts_duration video = true ↔ in_duration_window video.
Proof.
  unfold shorts_duration, in_duration_window, min_duration, max_duration.
  destruct (duration video) as [seconds|negative|]; cbn [float_le].
  - by rewrite andb_true_iff, !Qle_bool_iff.
  - by destruct negative.
  - done.
Qed.

Lemma policy_loop_window (rnd : nat → R) (threshold : Z) (videos : list Video) :
  ∀ i, Forall (λ video, in_duration_window video ∨ duration video = nan)
              (policy_loop rnd threshold i videos).
Proof.
  induction videos as [|video rest IH]; intros i; [constructor|].
  rewrite policy_loop_cons. cbv zeta.
  destruct (_ || _) eqn:Hduration; [apply IH|].
  do 3 (match goal with
        | |- Forall _ (if ?b then _ else _) => destruct b; [apply IH|]
        end).
  constructor; [|apply IH]. by apply duration_test_passed.
Qed.

Lemma newest_first_Permutation (videos sorted : list Video) :
  newest_first videos = Some sorted → sorted ≡ₚ videos.
Proof.
  unfold newest_first. destruct (forallb _ _); [|done].
  intros [= <-]. apply py_sorted_Permutation.
Qed.

(** The candidates satisfy the duration window unless the stage is one of
    the two that apply no filter; a NaN duration gets through the policy
    filter only. *)
Lemma choose_candidates_window (rnd : nat → R) (videos : list Video)
    (top_n : nat) (candidates : list Video) (stage : Stage) :
  choose_candidates rnd videos top_n = (candidates, stage) →
  unfiltered stage ∨
  Forall (λ video, in_duration_window video ∨
                   (stage = content_policy ∧ duration video = nan))
         candidates.
Proof.
  unfold choose_candidates, unfiltered.
  destruct (filter_by_content_policy rnd videos) as [|v kept] eqn:Hpolicy.
  - destruct (filter _ videos) as [|v duration_filtered] eqn:Hfilter.
    + destruct (newest_first videos); intros [= <- <-]; auto.
    + destruct (newest_first (v :: duration_filtered)) as [sorted|] eqn:Hsort;
        intros [= <- <-]; [|auto].
      right. apply Forall_take.
      rewrite (newest_first_Permutation _ _ Hsort), <- Hfilter.
      apply Forall_forall. intros x [Hx _]%list_elem_of_filter.
      left. by apply shorts_duration_window.
  - intros [= <- <-]. right. rewrite <- Hpolicy.
    unfold filter_by_content_policy. destruct videos; [done|].
    eapply Forall_impl; [apply policy_loop_window|].
    intros x [?|?]; auto.
Qed.

Lemma fmap_imap_fst {A B : Type} (f : nat → A → B) (l : list A) :
  fst <$> imap (λ i x, (x, f i x)) l = l.
Proof.
  revert f. induction l as [|x l IH]; intros f; simpl; [done|].
  f_equal. apply (IH (f ∘ S)).
Qed.

(** Ranking reorders the videos and neither drops nor adds one. *)
Lemma rank_videos_items (rnd : nat → R) (videos : list Video) :
  item <$> rank_videos rnd videos ≡ₚ videos.
Proof.
  unfold rank_videos.
  rewrite (fmap_imap_ignore item fst) by done.
  rewrite py_sorted_Permutation. by rewrite fmap_imap_fst.
Qed.

(** The fallback scenario of the specification: three videos within the
    duration window and below the view threshold.  The policy filter
    keeps none, and the first fallback returns them newest first, under
    its own stage. *)
Example quiet_channel_falls_back (rnd : nat → R) :
  calculate_dynamic_view_threshold quiet_channel = 3000 ∧
  choose_candidates rnd quiet_channel 2
  = ([quiet 200 1700000900; quiet 300 1700000300], duration_recency).
Proof. split; [by vm_compute | reflexivity]. Qed.

(** [select_top_videos] returns at most [top_n] videos.  Unless the logged
    stage is one of the two that apply no duration filter, every returned
    video is within the duration window or, under the policy stage only,
    has a NaN duration. *)
Lemma selection_window_or_nan (rnd_policy rnd_rank : nat → R)
    (videos : list Video) (top_n : nat) :
  let out := select_top_videos rnd_policy rnd_rank videos top_n in
  (length out.1 ≤ top_n)%nat ∧
  (unfiltered out.2 ∨
   Forall (λ r, in_duration_window (item r) ∨
                (out.2 = content_policy ∧ duration (item r) = nan)) out.1).
Proof.
  unfold select_top_videos. destruct videos as [|video videos]; simpl.
  - split; [lia | right; constructor].
  - destruct (choose_candidates rnd_policy (video :: videos) top_n)
      as [candidates stage] eqn:Hchoose. simpl.
    split.
    + rewrite length_take. lia.
    + destruct (choose_candidates_window _ _ _ _ _ Hchoose) as [Hu|Hw];
        [by left | right].
      apply Forall_take.
      apply (Forall_fmap item (λ video, in_duration_window video ∨
               (stage = content_policy ∧ duration video = nan))).
      by rewrite rank_videos_items.
Qed.

(** The policy filter keeps a well-viewed video whose duration is NaN. *)
Lemma nan_duration_video_kept (rnd : nat → R) :
  filter_by_content_policy rnd [nan_duration_video] = [nan_duration_video].
Proof.
  unfold filter_by_content_policy.
  assert (calculate_dynamic_view_threshold [nan_duration_video] = 40000) as ->
    by (by vm_compute).
  rewrite policy_loop_cons. cbv zeta.
  change (float_lt (duration nan_duration_video) (finite min_duration)
          || float_lt (finite max_duration) (duration nan_duration_video))
    with false.
  change (playCount nan_duration_video <? 40000) with false.
  change (existsb (λ tag, contains (lower tag) (lower (desc nan_duration_video)))
            exclude_hashtags) with false.
  cbv iota.
  destruct (Rlt_dec _ _) as [Hlow|]; [|done].
  exfalso. revert Hlow.
  rewrite score_with_metrics;
    [|simpl; lia | unfold no_metrics; simpl; lia].
  change (playCount nan_duration_video =? 0) with false.
  assert (true_div_overflows (engagement_total nan_duration_video)
            (playCount nan_duration_video) = false) as -> by (by vm_compute).
  change (engagement_total nan_duration_video) with 5000.
  change (playCount nan_duration_video) with 50000.
  assert (0 <= log10 (IZR (50000 + 1)))%R
    by (apply log10_nonneg, IZR_le; lia).
  unfold min_engagement_rate. lra.
Qed.

(** C6, at a video whose ['duration'] is NaN.  Neither comparison of the
    policy filter rejects it, so that [select_top_videos] returns it under
    the policy stage, outside the duration window; the comparison of the
    first fallback, [3 <= duration <= 60], rejects the same video. *)
Theorem nan_duration_selected (rnd_policy rnd_rank : nat → R) :
  let out := select_top_videos rnd_policy rnd_rank [nan_duration_video] 1 in
  item <$> out.1 = [nan_duration_video] ∧
  out.2 = content_policy ∧
  shorts_duration nan_duration_video = false ∧
  ¬ selection_as_specified rnd_policy rnd_rank [nan_duration_video] 1.
Proof.
  assert (Hout : select_top_videos rnd_policy rnd_rank [nan_duration_video] 1
                 = ([{| item := nan_duration_video;
                        engagement_score :=
                          calculate_engagement_score (rnd_rank 0%nat)
                            nan_duration_video;
                        rank := 1 |}], content_policy)).
  { unfold select_top_videos, choose_candidates.
    by rewrite nan_duration_video_kept. }
  cbv zeta. unfold selection_as_specified. rewrite Hout. cbn [fst snd].
  split_and!; [done..|].
  intros (_ & [[?|?]|Hwindow]); [done..|].
  by apply Forall_inv in Hwindow.
Qed.

End ContentAnalyzerFacts.

(** ** More of the analyzer *)

Module ContentAnalyzerMore.
Import ContentAnalyzer Samples ContentAnalyzerFacts.

(** *** The stable sort orders *)

Lemma insert_before_sorted {A : Type} (before : A → A → bool) (x : A)
    (l : list A) :
  (∀ a b, before a b = false → before b a = true) →
  (∀ a b c, before a b = true → before b c = true → before a c = true) →
  StronglySorted (λ a b, before a b = true) l →
  StronglySorted (λ a b, before a b = true) (insert_before before x l).
Proof.
  intros Htotal Htrans. induction 1 as [|y l Hsorted IH Hall]; simpl.
  - repeat constructor.
  - destruct (before x y) eqn:Hxy.
    + constructor; [by constructor|]. constructor; [done|].
      eapply Forall_impl; [done|]. intros z Hyz. by eapply Htrans.
    + constructor; [done|].
      rewrite insert_before_Permutation. constructor; [by apply Htotal | done].
Qed.

Lemma py_sorted_sorted {A : Type} (before : A → A → bool) (l : list A) :
  (∀ a b, before a b = false → before b a = true) →
  (∀ a b c, before a b = true → before b c = true → before a c = true) →
  StronglySorted (λ a b, before a b = true) (py_sorted before l).
Proof.
  intros Htotal Htrans. induction l as [|x l IH]; simpl; [constructor|].
  by apply insert_before_sorted.
Qed.

Lemma score_not_below_total (a b : Video * R) :
  score_not_below a b = false → score_not_below b a = true.
Proof.
  unfold score_not_below. destruct (Rle_dec b.2 a.2); [done|].
  destruct (Rle_dec a.2 b.2); [done|]. lra.
Qed.

Lemma score_not_below_trans (a b c : Video * R) :
  score_not_below a b = true → score_not_below b c = true →
  score_not_below a c = true.
Proof.
  unfold score_not_below.
  destruct (Rle_dec b.2 a.2); [|done]. destruct (Rle_dec c.2 b.2); [|done].
  destruct (Rle_dec c.2 a.2); [done|]. lra.
Qed.

Lemma imap_positions {A B : Type} (g : B → nat) (f : nat → A → B) (l : list A) :
  ∀ k, (∀ i x, g (f i x) = (i + k)%nat) →
  g <$> imap f l = seq k (length l).
Proof.
  revert f. induction l as [|x l IH]; intros f k Hf; simpl; [done|].
  rewrite Hf. simpl. f_equal. apply (IH (f ∘ S) (S k)).
  intros i y. simpl. rewrite Hf. lia.
Qed.

Lemma rank_videos_ranks (rnd : nat → R) (videos : list Video) :
  rank <$> rank_videos rnd videos = seq 1 (length videos).
Proof.
  unfold rank_videos. rewrite (imap_positions rank _ _ 1%nat) by done.
  by rewrite py_sorted_length, length_imap.
Qed.

Lemma imap_score_sorted (l : list (Video * R)) :
  ∀ f : nat → Video * R → Ranked,
    (∀ i p, engagement_score (f i p) = p.2) →
    StronglySorted (λ a b, score_not_below a b = true) l →
    StronglySorted score_order (imap f l).
Proof.
  induction l as [|p l IH]; intros f Hf Hs; simpl; [constructor|].
  apply StronglySorted_inv in Hs as [Hs Hall]. constructor.
  - apply IH; [intros; apply Hf | done].
  - apply Forall_forall. intros r (i & q & -> & Hq)%elem_of_lookup_imap_1.
    apply list_elem_of_lookup_2 in Hq.
    eapply Forall_forall in Hall; [|done].
    unfold score_order. simpl. rewrite !Hf.
    unfold score_not_below in Hall. by destruct (Rle_dec q.2 p.2).
Qed.

Lemma rank_videos_sorted (rnd : nat → R) (videos : list Video) :
  StronglySorted score_order (rank_videos rnd videos).
Proof.
  unfold rank_videos. apply imap_score_sorted; [done|].
  apply py_sorted_sorted;
    [apply score_not_below_total | apply score_not_below_trans].
Qed.

(** X19.  [rank_videos] returns the input videos, each once, in an order
    in which no score is followed by a higher one, and numbers them 1, 2,
    ... in that order. *)
Theorem rank_videos_ranked (rnd : nat → R) (videos : list Video) :
  let ranked := rank_videos rnd videos in
  item <$> ranked ≡ₚ videos ∧
  StronglySorted score_order ranked ∧
  rank <$> ranked = seq 1 (length videos).
Proof.
  cbv zeta. split_and!.
  - apply rank_videos_items.
  - apply rank_videos_sorted.
  - apply rank_videos_ranks.
Qed.

(** *** The dynamic view threshold *)

Lemma threshold_within_floor (videos : list Video) :
  min_views ≤ calculate_dynamic_view_threshold videos.
Proof.
  unfold calculate_dynamic_view_threshold, min_views.
  destruct videos as [|video videos]; [lia|].
  destruct (positive_view_counts (video :: videos)); [lia|].
  destruct (threshold_of_counts _) as [threshold|] eqn:Htry; simpl; [|lia].
  apply threshold_of_counts_clamped in Htry as (avg_views & _ & Hclamp).
  destruct (classify avg_views); simpl in Hclamp; lia.
Qed.

(** X20.  Whatever the videos, the dynamic view threshold lies between the
    configured [min_views], 1000, and 500000. *)
Theorem threshold_within_global_bounds (videos : list Video) :
  min_views ≤ calculate_dynamic_view_threshold videos ∧
  calculate_dynamic_view_threshold videos ≤ max_bound.
Proof.
  split; [apply threshold_within_floor|].
  unfold calculate_dynamic_view_threshold, min_views, max_bound.
  destruct videos as [|video videos]; [lia|].
  destruct (positive_view_counts (video :: videos)); [lia|].
  destruct (threshold_of_counts _) as [threshold|] eqn:Htry; simpl; [|lia].
  apply threshold_of_counts_clamped in Htry as (avg_views & _ & Hclamp).
  unfold max_bound in Hclamp. lia.
Qed.

Lemma Zleb_antisym : AntiSymm eq (λ a b : Z, (a <=? b) = true).
Proof. intros a b Ha%Z.leb_le Hb%Z.leb_le. lia. Qed.

Lemma py_sorted_Zleb_unique (l1 l2 : list Z) :
  l1 ≡ₚ l2 → py_sorted Z.leb l1 = py_sorted Z.leb l2.
Proof.
  intros Hperm.
  apply (@StronglySorted_unique Z (λ a b, (a <=? b) = true) Zleb_antisym).
  - apply py_sorted_sorted.
    + intros a b Hab. apply Z.leb_le. apply Z.leb_gt in Hab. lia.
    + intros a b c Hab%Z.leb_le Hbc%Z.leb_le. apply Z.leb_le. lia.
  - apply py_sorted_sorted.
    + intros a b Hab. apply Z.leb_le. apply Z.leb_gt in Hab. lia.
    + intros a b c Hab%Z.leb_le Hbc%Z.leb_le. apply Z.leb_le. lia.
  - by rewrite !py_sorted_Permutation.
Qed.

Lemma threshold_of_positive_counts (videos : list Video) :
  calculate_dynamic_view_threshold videos
  = match positive_view_counts videos with
    | [] => min_views
    | view_counts =>
        default min_views (threshold_of_counts (py_sorted Z.leb view_counts))
    end.
Proof. unfold calculate_dynamic_view_threshold. by destruct videos. Qed.

(** X21.  The threshold depends only on the positive view counts of the
    channel, not on their order: two lists of videos whose positive play
    counts are the same up to order, whatever videos without views they
    contain, get the same threshold. *)
Theorem threshold_ignores_order_and_zeros (videos1 videos2 : list Video) :
  positive_view_counts videos1 ≡ₚ positive_view_counts videos2 →
  calculate_dynamic_view_threshold videos1
  = calculate_dynamic_view_threshold videos2.
Proof.
  intros Hperm. rewrite !threshold_of_positive_counts.
  pose proof (py_sorted_Zleb_unique _ _ Hperm) as Hsorted.
  destruct (positive_view_counts videos1) as [|a l1];
    destruct (positive_view_counts videos2) as [|b l2].
  - done.
  - by apply Permutation_nil_cons in Hperm.
  - symmetry in Hperm. by apply Permutation_nil_cons in Hperm.
  - by rewrite Hsorted.
Qed.

Lemma threshold_ignores_order_and_zeros_witness :
  calculate_dynamic_view_threshold channel_in_order
  = calculate_dynamic_view_threshold channel_shuffled.
Proof.
  apply (threshold_ignores_order_and_zeros channel_in_order channel_shuffled).
  vm_compute.
  etrans; [apply perm_swap|].
  etrans; [apply perm_skip, perm_swap|].
  apply perm_swap.
Defined.

(** *** Scoring *)

(** X22.  With non-negative counters and a non-negative random draw the
    score is never negative. *)
Theorem score_nonneg (rnd : R) (video : Video) :
  counters_nonneg video →
  (0 <= rnd)%R →
  (0 <= calculate_engagement_score rnd video)%R.
Proof.
  intros Hnn Hrnd.
  destruct (decide (no_metrics video)) as [Hzero|Hsome].
  - rewrite score_no_metrics by done. by apply fallback_score_nonneg.
  - destruct Hnn as (Hv & Hl & Hc & Hs).
    rewrite score_with_metrics by done.
    destruct (Z.eqb_spec (playCount video) 0); [lra|].
    destruct (true_div_overflows _ _); [lra|].
    apply formula_nonneg; [lia | unfold engagement_total; lia].
Qed.

Lemma score_nonneg_witness :
  (0 <= calculate_engagement_score 0.5 popular)%R.
Proof.
  apply (score_nonneg 0.5 popular).
  - unfold counters_nonneg. simpl. lia.
  - lra.
Defined.

(** The score of a video that has views does not use the random draw. *)
Lemma score_with_views (rnd rnd' : R) (video : Video) :
  0 < playCount video →
  calculate_engagement_score rnd video = calculate_engagement_score rnd' video.
Proof.
  intros Hv.
  assert (¬ no_metrics video) by (unfold no_metrics; lia).
  by rewrite !score_with_metrics by (done || lia).
Qed.

(** *** The policy filter *)

Lemma existsb_false_Forall {A : Type} (f : A → bool) (l : list A) :
  existsb f l = false → Forall (λ x, f x = false) l.
Proof.
  induction l as [|x l IH]; simpl; [constructor|].
  intros [Hx Hl]%orb_false_iff. constructor; auto.
Qed.

Lemma policy_loop_sound (rnd : nat → R) (threshold : Z) (videos : list Video) :
  0 < threshold →
  ∀ i, Forall (meets_policy threshold) (policy_loop rnd threshold i videos) ∧
       policy_loop rnd threshold i videos `sublist_of` videos.
Proof.
  intros Hthr. induction videos as [|video rest IH]; intros i.
  - split; [constructor | done].
  - rewrite policy_loop_cons. cbv zeta. destruct (IH (S i)) as [IHall IHsub].
    destruct (_ || _) eqn:Hduration;
      [split; [done | by apply sublist_cons]|].
    destruct (Z.ltb_spec (playCount video) threshold);
      [split; [done | by apply sublist_cons]|].
    destruct (Rlt_dec _ _) as [|Hscore];
      [split; [done | by apply sublist_cons]|].
    destruct (existsb _ exclude_hashtags) eqn:Htags;
      [split; [done | by apply sublist_cons]|].
    split; [|by apply sublist_skip].
    constructor; [|done]. unfold meets_policy. split_and!.
    + by apply duration_test_passed.
    + done.
    + intros r. rewrite (score_with_views r (rnd i)) by lia. lra.
    + by apply existsb_false_Forall.
Qed.

Lemma threshold_positive (videos : list Video) :
  0 < calculate_dynamic_view_threshold videos.
Proof.
  pose proof (threshold_within_floor videos). unfold min_views in *. lia.
Qed.

Lemma policy_filter_sound_sublist (rnd : nat → R) (videos : list Video) :
  filter_by_content_policy rnd videos `sublist_of` videos.
Proof.
  unfold filter_by_content_policy. destruct videos as [|video videos]; [done|].
  apply policy_loop_sound, threshold_positive.
Qed.

Lemma policy_filter_sound_meets (rnd : nat → R) (videos : list Video) :
  Forall (meets_policy (calculate_dynamic_view_threshold videos))
         (filter_by_content_policy rnd videos).
Proof.
  unfold filter_by_content_policy. destruct videos as [|video videos];
    [constructor|].
  apply policy_loop_sound, threshold_positive.
Qed.

(** X23.  Every video kept by [filter_by_content_policy] has a duration
    that is a number within the duration window, or NaN, which neither
    comparison of the filter rejects; it has at least the dynamic view
    threshold of its channel in views, scores at least the minimum
    engagement rate and has none of the excluded hashtags in its
    description, in any letter case; the kept videos are in their input
    order. *)
Theorem policy_filter_sound (rnd : nat → R) (videos : list Video) :
  Forall (meets_policy (calculate_dynamic_view_threshold videos))
         (filter_by_content_policy rnd videos) ∧
  filter_by_content_policy rnd videos `sublist_of` videos.
Proof.
  unfold filter_by_content_policy.
  destruct videos as [|video videos]; [split; [constructor | done]|].
  apply policy_loop_sound, threshold_positive.
Qed.

Lemma policy_loop_no_draw (rnd rnd' : nat → R) (threshold : Z)
    (videos : list Video) :
  0 < threshold →
  ∀ i, policy_loop rnd threshold i videos = policy_loop rnd' threshold i videos.
Proof.
  intros Hthr. induction videos as [|video rest IH]; intros i; [done|].
  rewrite !policy_loop_cons. cbv zeta. rewrite (IH (S i)).
  destruct (_ || _); [done|].
  destruct (Z.ltb_spec (playCount video) threshold); [done|].
  by rewrite (score_with_views (rnd i) (rnd' i)) by lia.
Qed.

(** X24.  The policy filter never uses the random fallback score: a video
    without views is dropped by the view threshold before it is scored,
    so the result is the same whatever [random.uniform] would return. *)
Theorem policy_filter_ignores_random (rnd rnd' : nat → R)
    (videos : list Video) :
  filter_by_content_policy rnd videos = filter_by_content_policy rnd' videos.
Proof.
  unfold filter_by_content_policy. destruct videos as [|video videos]; [done|].
  apply policy_loop_no_draw, threshold_positive.
Qed.

(** *** Selection *)

Lemma rank_videos_scores (rnd : nat → R) (videos : list Video) :
  Forall (λ r, ∃ i, engagement_score r
                    = calculate_engagement_score (rnd i) (item r))
         (rank_videos rnd videos).
Proof.
  apply Forall_forall. unfold rank_videos.
  intros r (j & p & -> & Hp)%elem_of_lookup_imap_1.
  apply list_elem_of_lookup_2 in Hp. rewrite py_sorted_Permutation in Hp.
  apply elem_of_lookup_imap_1 in Hp as (i & video & -> & _).
  by exists i.
Qed.

Lemma rank_videos_length (rnd : nat → R) (videos : list Video) :
  length (rank_videos rnd videos) = length videos.
Proof.
  pose proof (Permutation_length (rank_videos_items rnd videos)) as H.
  by rewrite length_fmap in H.
Qed.

Lemma newest_first_length (videos sorted : list Video) :
  newest_first videos = Some sorted → length sorted = length videos.
Proof. intros H%newest_first_Permutation. by apply Permutation_length. Qed.

Lemma choose_candidates_subset (rnd : nat → R) (videos : list Video)
    (top_n : nat) (candidates : list Video) (stage : Stage) :
  choose_candidates rnd videos top_n = (candidates, stage) →
  Forall (λ v, v ∈ videos) candidates.
Proof.
  unfold choose_candidates.
  assert (Htake : ∀ l : list Video, Forall (λ v, v ∈ videos) l →
            Forall (λ v, v ∈ videos) (take top_n l))
    by (intros l; apply Forall_take).
  assert (Hall : Forall (λ v, v ∈ videos) videos)
    by (by apply Forall_forall).
  destruct (filter_by_content_policy rnd videos) as [|v kept] eqn:Hpolicy.
  - destruct (filter _ videos) as [|v duration_filtered] eqn:Hfilter.
    + destruct (newest_first videos) as [sorted|] eqn:Hsort;
        intros [= <- <-]; [|by apply Htake].
      apply Htake. by rewrite (newest_first_Permutation _ _ Hsort).
    + destruct (newest_first (v :: duration_filtered)) as [sorted|] eqn:Hsort;
        intros [= <- <-]; [|by apply Htake].
      apply Htake. rewrite (newest_first_Permutation _ _ Hsort), <- Hfilter.
      apply Forall_forall. by intros x [_ Hx]%list_elem_of_filter.
  - intros [= <- <-]. rewrite <- Hpolicy.
    pose proof (policy_filter_sound_sublist rnd videos) as Hsub.
    apply Forall_forall. intros x Hx. by eapply elem_of_sublist.
Qed.

Lemma choose_candidates_nonempty (rnd : nat → R) (videos : list Video)
    (top_n : nat) (candidates : list Video) (stage : Stage) :
  videos ≠ [] → (0 < top_n)%nat →
  choose_candidates rnd videos top_n = (candidates, stage) →
  candidates ≠ [].
Proof.
  intros Hvideos Htop. unfold choose_candidates.
  assert (Htake : ∀ l : list Video, l ≠ [] → take top_n l ≠ []).
  { intros [|x l] Hl; [done|]. by destruct top_n; [lia|]. }
  destruct (filter_by_content_policy rnd videos) as [|v kept].
  - destruct (filter _ videos) as [|v duration_filtered].
    + destruct (newest_first videos) as [sorted|] eqn:Hsort;
        intros [= <- <-]; apply Htake; [|done].
      intros ->. apply newest_first_length in Hsort.
      by destruct videos.
    + destruct (newest_first (v :: duration_filtered)) as [sorted|] eqn:Hsort;
        intros [= <- <-]; apply Htake; [|done].
      intros ->. by apply newest_first_length in Hsort.
  - by intros [= <- <-].
Qed.

(** X25.  The cascade always returns something: from a non-empty list of
    videos and a positive [top_n], [select_top_videos] selects at least
    one video, and every selected video is one of the input videos. *)
Theorem selection_available (rnd_policy rnd_rank : nat → R)
    (videos : list Video) (top_n : nat) :
  videos ≠ [] →
  (0 < top_n)%nat →
  let out := select_top_videos rnd_policy rnd_rank videos top_n in
  out.1 ≠ [] ∧ Forall (λ r, item r ∈ videos) out.1.
Proof.
  intros Hvideos Htop. cbv zeta. unfold select_top_videos.
  destruct videos as [|video videos]; [done|].
  destruct (choose_candidates rnd_policy (video :: videos) top_n)
    as [candidates stage] eqn:Hchoose. simpl.
  pose proof (choose_candidates_nonempty _ _ _ _ _ Hvideos Htop Hchoose) as Hne.
  pose proof (choose_candidates_subset _ _ _ _ _ Hchoose) as Hsub.
  pose proof (rank_videos_items rnd_rank candidates) as Hitems.
  split.
  - intros Hnil. apply (f_equal length) in Hnil.
    rewrite length_take in Hnil. simpl in Hnil.
    rewrite rank_videos_length in Hnil.
    destruct candidates; [done|]. simpl in *. lia.
  - apply Forall_take. apply (Forall_fmap item (λ v, v ∈ video :: videos)).
    by rewrite Hitems.
Qed.

Lemma selection_available_witness :
  let out := select_top_videos (λ _, 0.5%R) (λ _, 0.5%R) quiet_channel 2 in
  out.1 ≠ [] ∧ Forall (λ r, item r ∈ quiet_channel) out.1.
Proof.
  apply (selection_available (λ _, 0.5%R) (λ _, 0.5%R) quiet_channel 2);
    [discriminate | lia].
Defined.

(** X26.  The selected videos come in ranking order: their ranks are 1, 2,
    ... without a gap, and no score is followed by a higher one. *)
Theorem selection_ranked (rnd_policy rnd_rank : nat → R)
    (videos : list Video) (top_n : nat) :
  let out := select_top_videos rnd_policy rnd_rank videos top_n in
  rank <$> out.1 = seq 1 (length out.1) ∧
  StronglySorted score_order out.1.
Proof.
  cbv zeta. unfold select_top_videos.
  destruct videos as [|video videos]; simpl; [split; [done | constructor]|].
  destruct (choose_candidates rnd_policy (video :: videos) top_n)
    as [candidates stage]. simpl. split.
  - rewrite fmap_take, rank_videos_ranks, take_seq, length_take.
    rewrite rank_videos_length. done.
  - eapply sublist_StronglySorted; [apply sublist_take|].
    apply rank_videos_sorted.
Qed.

Lemma choose_candidates_policy_stage (rnd : nat → R) (videos : list Video)
    (top_n : nat) :
  ((choose_candidates rnd videos top_n).2 = content_policy
   ↔ filter_by_content_policy rnd videos ≠ []) ∧
  ((choose_candidates rnd videos top_n).2 = content_policy →
   (choose_candidates rnd videos top_n).1 = filter_by_content_policy rnd videos).
Proof.
  unfold choose_candidates.
  destruct (filter_by_content_policy rnd videos) as [|v kept]; [|done].
  destruct (filter _ videos) as [|w duration_filtered];
    [destruct (newest_first videos)
    |destruct (newest_first (w :: duration_filtered))]; by split.
Qed.

(** X27.  When the policy filter keeps at least one video, the selection
    is made among the kept videos only: unless a fallback stage was
    logged, every selected video meets the content policy for the
    channel's dynamic threshold (with a duration within the window, or
    NaN), and its recorded score is at least the minimum engagement
    rate. *)
Theorem policy_stage_selection (rnd_policy rnd_rank : nat → R)
    (videos : list Video) (top_n : nat) :
  let out := select_top_videos rnd_policy rnd_rank videos top_n in
  (out.2 = content_policy ↔ filter_by_content_policy rnd_policy videos ≠ []) ∧
  (out.2 ≠ content_policy ∨
   Forall (λ r, meets_policy (calculate_dynamic_view_threshold videos) (item r) ∧
                (min_engagement_rate <= engagement_score r)%R) out.1).
Proof.
  cbv zeta.
  destruct (choose_candidates_policy_stage rnd_policy videos top_n)
    as [Hstage Hkept].
  pose proof (policy_filter_sound_meets rnd_policy videos) as Hsound.
  unfold select_top_videos.
  destruct videos as [|video videos].
  { simpl. split; [by split | by left]. }
  destruct (choose_candidates rnd_policy (video :: videos) top_n)
    as [candidates stage]. cbn [fst snd] in *.
  split; [done|].
  destruct stage; try (by left). right.
  rewrite <- (Hkept eq_refl) in Hsound.
  apply Forall_take.
  pose proof (rank_videos_scores rnd_rank candidates) as Hscores.
  pose proof (rank_videos_items rnd_rank candidates) as Hitems.
  assert (Hmeets : Forall (λ r, meets_policy
            (calculate_dynamic_view_threshold (video :: videos)) (item r))
            (rank_videos rnd_rank candidates)).
  { apply (Forall_fmap item (meets_policy _)). by rewrite Hitems. }
  apply Forall_forall. intros r Hr.
  eapply Forall_forall in Hscores as [i Hi]; [|done].
  eapply Forall_forall in Hmeets; [|done].
  split; [done|]. rewrite Hi. by destruct Hmeets as (_ & _ & Hscore & _).
Qed.

End ContentAnalyzerMore.
